(** * Double-bottom detection agent: a shallow embedding of [agent.js]

    The agent scans a price history for two comparable local minima, pairs
    the two most recent ones, computes the neckline between them, scores the
    pattern against the learning history and classifies the alert.

    Numbers.  A JavaScript number is an IEEE 754 binary64 value.  A finite
    one is modelled by the rational it denotes, the others by [Infinity],
    [-Infinity] and [NaN].  Subtraction, multiplication and division round
    their exact result to the nearest binary64 value, ties to even, and a
    decimal literal of the source denotes the binary64 value nearest to it;
    comparisons, [Math.abs] and [Math.max] are exact.  Values decoded from
    JSON (prices, timestamps, the current price) are finite and are typed
    [Q].  The sign of zero is not modelled: a zero is the positive zero. *)

From Stdlib Require Import QArith Qabs Qround Qpower Qreduction.
From Stdlib Require Import List String Bool Arith Lia Lqa Sorted.
Import ListNotations.

Open Scope Q_scope.

(** ** JavaScript numbers *)

Module Num.

Inductive number : Type :=
| Fin (q : Q)
| PosInf
| NegInf
| NaN.

Definition Qlt_bool (x y : Q) : bool := negb (Qle_bool y x).
Definition Qpos_bool (x : Q) : bool := Qlt_bool 0 x.
Definition Qneg_bool (x : Q) : bool := Qlt_bool x 0.

(** The integer [l] with [2 ^ l <= a < 2 ^ (l + 1)], for a positive [a]:
    the difference of the bit lengths of numerator and denominator, or one
    less. *)
Definition Qlog2 (a : Q) : Z :=
  let k := (Z.log2 (Qnum a) - Z.log2 (Z.pos (Qden a)))%Z in
  if Qle_bool (2 ^ k) a then k else (k - 1)%Z.

(** The nearest integer, the even one of the two when [x] is half way. *)
Definition rne (x : Q) : Z :=
  let f := Qfloor x in
  match Qcompare (x - inject_Z f) (1 # 2) with
  | Lt => f
  | Gt => (f + 1)%Z
  | Eq => if Z.even f then f else (f + 1)%Z
  end.

(** The exponent of the last place of the binary64 values around a
    positive [a]: 53 significant bits, and no exponent below -1074. *)
Definition ulp_exp (a : Q) : Z := Z.max (Qlog2 a - 52) (-1074).

(** A positive rational rounded to a multiple of its last place. *)
Definition round_pos (a : Q) : Q :=
  inject_Z (rne (a / 2 ^ ulp_exp a)) * 2 ^ ulp_exp a.

(** The binary64 value nearest to [q], ties to even; an infinity when the
    rounded magnitude reaches [2 ^ 1024].  Finite results are in lowest
    terms. *)
Definition round64 (q : Q) : number :=
  if Qeq_bool q 0 then Fin 0
  else
    let r := Qred (round_pos (Qabs q)) in
    if Qle_bool (2 ^ 1024) r
    then (if Qlt_bool 0 q then PosInf else NegInf)
    else Fin (if Qlt_bool 0 q then r else - r).

(** The value of a decimal literal of the source. *)
Definition literal (q : Q) : number := round64 q.

(** The rational a finite number denotes. *)
Definition value (a : number) : Q :=
  match a with
  | Fin q => q
  | _ => 0
  end.

(** The rational denoted by the number written [q]. *)
Definition double (q : Q) : Q := value (literal q).

(** [a - b] *)
Definition sub (a b : number) : number :=
  match a, b with
  | NaN, _ | _, NaN => NaN
  | Fin x, Fin y => round64 (x - y)
  | PosInf, PosInf | NegInf, NegInf => NaN
  | PosInf, _ | _, NegInf => PosInf
  | NegInf, _ | _, PosInf => NegInf
  end.

(** [Math.abs(a)] *)
Definition abs (a : number) : number :=
  match a with
  | Fin x => Fin (Qabs x)
  | PosInf | NegInf => PosInf
  | NaN => NaN
  end.

Definition neg (a : number) : number :=
  match a with
  | Fin x => Fin (- x)
  | PosInf => NegInf
  | NegInf => PosInf
  | NaN => NaN
  end.

(** The infinity with the sign of [s] times the sign of [x]; [NaN] when
    [x] is zero and [zero_nan] is set (as in [Infinity * 0]). *)
Definition signed_inf (s : number) (x : Q) (zero_nan : bool) : number :=
  if Qneg_bool x then neg s
  else if Qpos_bool x then s
  else if zero_nan then NaN else s.

(** [a * b] *)
Definition mul (a b : number) : number :=
  match a, b with
  | NaN, _ | _, NaN => NaN
  | Fin x, Fin y => round64 (x * y)
  | Fin x, PosInf => signed_inf PosInf x true
  | Fin x, NegInf => signed_inf NegInf x true
  | PosInf, Fin y => signed_inf PosInf y true
  | NegInf, Fin y => signed_inf NegInf y true
  | PosInf, PosInf | NegInf, NegInf => PosInf
  | PosInf, NegInf | NegInf, PosInf => NegInf
  end.

(** [a / b]; a zero divisor is the positive zero. *)
Definition div (a b : number) : number :=
  match a, b with
  | NaN, _ | _, NaN => NaN
  | Fin x, Fin y =>
      if Qeq_bool y 0
      then (if Qpos_bool x then PosInf
            else if Qneg_bool x then NegInf
            else NaN)
      else round64 (x / y)
  | Fin _, (PosInf | NegInf) => Fin 0
  | PosInf, Fin y => signed_inf PosInf y false
  | NegInf, Fin y => signed_inf NegInf y false
  | (PosInf | NegInf), (PosInf | NegInf) => NaN
  end.

(** [a < b]: false as soon as one side is [NaN]. *)
Definition ltb (a b : number) : bool :=
  match a, b with
  | NaN, _ | _, NaN => false
  | Fin x, Fin y => Qlt_bool x y
  | NegInf, (Fin _ | PosInf) => true
  | Fin _, PosInf => true
  | _, _ => false
  end.

(** [a <= b] *)
Definition leb (a b : number) : bool :=
  match a, b with
  | NaN, _ | _, NaN => false
  | Fin x, Fin y => Qle_bool x y
  | NegInf, _ | _, PosInf => true
  | _, _ => false
  end.

(** [a >= b] *)
Definition geb (a b : number) : bool := leb b a.

(** [Math.max(a, b)] *)
Definition max2 (a b : number) : number :=
  match a, b with
  | NaN, _ | _, NaN => NaN
  | PosInf, _ | _, PosInf => PosInf
  | NegInf, c | c, NegInf => c
  | Fin x, Fin y => if Qle_bool x y then Fin y else Fin x
  end.

(** [Math.max(...xs)]: [-Infinity] for no argument. *)
Definition maximum (xs : list number) : number := fold_left max2 xs NegInf.

(** Two numbers denote the same value. *)
Definition same (a b : number) : Prop :=
  match a, b with
  | Fin x, Fin y => x == y
  | PosInf, PosInf | NegInf, NegInf | NaN, NaN => True
  | _, _ => False
  end.

End Num.

Import Num.

(** ** Arrays *)

(** [l.slice(b, e)] for non-negative [b] and [e]. *)
Definition slice {A : Type} (l : list A) (b e : nat) : list A :=
  firstn (e - b) (skipn b l).

(** [l.slice(-n)]: the last [n] elements, the whole array when it is shorter. *)
Definition slice_last {A : Type} (l : list A) (n : nat) : list A :=
  skipn (List.length l - n) l.

(** [l.every(f)] *)
Definition every {A : Type} (l : list A) (f : A -> bool) : bool := forallb f l.

(** ** Configuration ([CONFIG]) *)

Record TimeBetweenBottoms : Type := { min : Q; max : Q }.

Record Config : Type :=
  { minVolume : Q;
    minMarketCap : Q;
    tolerance : Q;
    timeBetweenBottoms : TimeBetweenBottoms;
    checkInterval : Q }.

Definition CONFIG : Config :=
  {| minVolume := 1000000;
     minMarketCap := 40000000;
     tolerance := 0.20;
     timeBetweenBottoms := {| min := 21; max := 42 |};
     checkInterval := 1800000 |}.

(** ** Price data, bottoms and patterns *)

(** One sample [[timestamp, price]] of the price history; timestamps are
    milliseconds. *)
Definition PricePoint : Type := (Q * Q)%type.

Definition PriceData : Type := list PricePoint.

Record Bottom : Type :=
  { timestamp : Q;
    price : Q;
    index : nat }.

Record Pattern : Type :=
  { firstBottom : Bottom;
    secondBottom : Bottom;
    neckline : number;
    depth : number;
    timespan : number }.

(** [priceData[i]]; every use below has [i] inside the array. *)
Definition at_index (priceData : PriceData) (i : nat) : PricePoint :=
  nth i priceData (0, 0).

(** ** [findBottoms] *)

(** The test [isBottom] of the loop body at index [i].  The loop calls it
    with [10 <= i] only, where [i - 10] is not negative. *)
Definition isBottom (priceData : PriceData) (i : nat) : bool :=
  let current := snd (at_index priceData i) in
  every (slice priceData (i - 10) i) (fun p => Qle_bool current (snd p)) &&
  every (slice priceData (i + 1) (i + 11)) (fun p => Qle_bool current (snd p)).

(** The object pushed for index [i]. *)
Definition bottom_at (priceData : PriceData) (i : nat) : Bottom :=
  {| timestamp := fst (at_index priceData i);
     price := snd (at_index priceData i);
     index := i |}.

(** One iteration of the loop: push the bottom found at [i], if any. *)
Definition findBottoms_step (priceData : PriceData) (bottoms : list Bottom)
    (i : nat) : list Bottom :=
  if isBottom priceData i
  then bottoms ++ [bottom_at priceData i]
  else bottoms.

(** [for (let i = 10; i < priceData.length - 10; i++)]: the indices
    [10, ..., length - 11], none when the array has at most 20 samples. *)
Definition findBottoms (priceData : PriceData) : list Bottom :=
  fold_left (findBottoms_step priceData)
            (seq 10 (List.length priceData - 10 - 10)) [].

(** ** [calculateNeckline] *)

Definition calculateNeckline (priceData : PriceData)
    (firstBottom secondBottom : Bottom) : number :=
  let between := slice priceData (index firstBottom) (index secondBottom) in
  maximum (map (fun p => Fin (snd p)) between).

(** ** [analyzeCrypto] *)

(** [|first.price - second.price| / first.price] *)
Definition priceDiff (first second : Bottom) : number :=
  div (abs (sub (Fin (price first)) (Fin (price second)))) (Fin (price first)).

(** [(second.timestamp - first.timestamp) / (1000 * 60 * 60 * 24)] *)
Definition timeDiff (first second : Bottom) : number :=
  div (sub (Fin (timestamp second)) (Fin (timestamp first)))
      (Fin (1000 * 60 * 60 * 24)).

(** The acceptance test of the two bottoms. *)
Definition criteria (first second : Bottom) : bool :=
  leb (priceDiff first second) (literal (tolerance CONFIG)) &&
  geb (timeDiff first second) (Fin (min (timeBetweenBottoms CONFIG))) &&
  leb (timeDiff first second) (Fin (max (timeBetweenBottoms CONFIG))).

(** The part of [analyzeCrypto] after the bottoms are found.  The result
    [{ hasDoubleBottom: true, pattern }] is [Some pattern] and
    [{ hasDoubleBottom: false }] is [None].  Under the length test
    [bottoms.slice(-2)] has two elements, so the last branch of the match
    is never taken. *)
Definition analyzeBottoms (priceData : PriceData) (bottoms : list Bottom)
    : option Pattern :=
  if 2 <=? List.length bottoms then
    match slice_last bottoms 2 with
    | first :: second :: _ =>
        if criteria first second then
          Some {| firstBottom := first;
                  secondBottom := second;
                  neckline := calculateNeckline priceData first second;
                  depth := priceDiff first second;
                  timespan := timeDiff first second |}
        else None
    | _ => None
    end
  else None.

(** The body of [analyzeCrypto] once the price history has been fetched. *)
Definition analyzePriceData (priceData : PriceData) : option Pattern :=
  analyzeBottoms priceData (findBottoms priceData).

(** ** [MLPredictor] *)

Record HistoryEntry : Type :=
  { pattern : Pattern;
    outcome : string }.

Record MLPredictor : Type :=
  { history : list HistoryEntry;
    successRate : number }.

(** [new MLPredictor()] *)
Definition ml_new : MLPredictor :=
  {| history := []; successRate := Fin 0 |}.

(** An array length as a number; lengths are integers below [2 ^ 32] and
    so exact. *)
Definition of_nat (n : nat) : number := Fin (inject_Z (Z.of_nat n)).

(** [h.outcome === 'success'] *)
Definition is_success (h : HistoryEntry) : bool :=
  String.eqb (outcome h) "success".

Definition updateSuccessRate (this : MLPredictor) : MLPredictor :=
  let successful := List.length (filter is_success (history this)) in
  {| history := history this;
     successRate :=
       mul (div (of_nat successful) (of_nat (List.length (history this))))
           (Fin 100) |}.

Definition learn (this : MLPredictor) (p : Pattern) (o : string)
    : MLPredictor :=
  updateSuccessRate
    {| history := history this ++ [ {| pattern := p; outcome := o |} ];
       successRate := successRate this |}.

(** [Math.abs(h.pattern.depth - pattern.depth) < 0.1] *)
Definition similar (p : Pattern) (h : HistoryEntry) : bool :=
  ltb (abs (sub (depth (pattern h)) (depth p))) (literal 0.1).

Definition predict (this : MLPredictor) (p : Pattern) : number :=
  let similarPatterns := filter (similar p) (history this) in
  if List.length similarPatterns =? 0 then Fin 0.5
  else
    let successCount := List.length (filter is_success similarPatterns) in
    div (of_nat successCount) (of_nat (List.length similarPatterns)).

(** ** [sendAlert] *)

Record Crypto : Type :=
  { id : string;
    symbol : string;
    current_price : Q;
    market_cap : Q;
    total_volume : Q }.

Inductive AlertType : Type :=
| ALERTA_AMARELO
| ALERTA_LARANJA
| ALERTA_VERMELHO.

(** The [if / else if / else if] chain that sets [alertType]; [None] is the
    variable left [undefined].  [pattern.secondBottom] is an object, hence
    truthy, so the guard [pattern.secondBottom && ...] is its second part. *)
Definition alertType (currentPrice : Q) (p : Pattern) : option AlertType :=
  if ltb (Fin currentPrice)
         (mul (Fin (price (secondBottom p))) (literal 1.05))
  then Some ALERTA_AMARELO
  else if ltb (Fin currentPrice) (mul (neckline p) (literal 0.95))
  then Some ALERTA_LARANJA
  else if geb (Fin currentPrice) (mul (neckline p) (literal 0.95))
  then Some ALERTA_VERMELHO
  else None.

(** The values interpolated into the alert text, before formatting. *)
Record Alert : Type :=
  { alert_crypto : Crypto;
    alert_type : option AlertType;
    alert_pattern : Pattern;
    alert_stopLoss : number;
    alert_potentialGain : number;
    alert_confidence : number }.

Definition makeAlert (crypto : Crypto) (p : Pattern) (confidence : number)
    : Alert :=
  let currentPrice := current_price crypto in
  {| alert_crypto := crypto;
     alert_type := alertType currentPrice p;
     alert_pattern := p;
     alert_stopLoss := mul (Fin (price (secondBottom p))) (literal 0.95);
     alert_potentialGain :=
       mul (div (sub (neckline p) (Fin currentPrice)) (Fin currentPrice))
           (Fin 100);
     alert_confidence := confidence |}.

(** ** The detection cycle

    The cycle is effectful: it awaits two kinds of requests, reads the
    process-wide predictor [ml], writes to the console and may throw.  A
    computation takes the world to a result (a value or a thrown error) and
    the world after it. *)

Definition Error : Type := string.

Inductive Event : Type :=
| FetchMarkets
| FetchMarketChart (cryptoId : string)
| ConsoleLog (alert : Alert)
| ConsoleError (error : Error).

Record World : Type :=
  { ml : MLPredictor;
    events : list Event }.

Inductive Result (A : Type) : Type :=
| Ok (a : A)
| Throw (error : Error).

Arguments Ok {A} a.
Arguments Throw {A} error.

Definition M (A : Type) : Type := World -> Result A * World.

Definition ret {A : Type} (a : A) : M A := fun w => (Ok a, w).

Definition bind {A B : Type} (m : M A) (k : A -> M B) : M B :=
  fun w =>
    match m w with
    | (Ok a, w') => k a w'
    | (Throw e, w') => (Throw e, w')
    end.

Declare Scope agent_scope.
Delimit Scope agent_scope with agent.

Notation "x <- m ;; k" := (bind m (fun x => k))
  (at level 100, m at next level, right associativity) : agent_scope.
Notation "m ;; k" := (bind m (fun _ => k))
  (at level 100, right associativity) : agent_scope.

Open Scope agent_scope.

(** [try { body } catch (error) { handler(error) }] *)
Definition try_catch {A : Type} (body : M A) (handler : Error -> M A) : M A :=
  fun w =>
    match body w with
    | (Ok a, w') => (Ok a, w')
    | (Throw e, w') => handler e w'
    end.

Definition emit (ev : Event) : M unit :=
  fun w => (Ok tt, {| ml := ml w; events := events w ++ [ev] |}).

(** [for (const x of xs) { body(x) }] *)
Fixpoint for_of {A : Type} (xs : list A) (body : A -> M unit) : M unit :=
  match xs with
  | [] => ret tt
  | x :: rest => body x ;; for_of rest body
  end.

Section Cycle.

(** What the provider answers: the decoded body of the markets request,
    and of the market-chart request of each asset, or the error the
    [await] throws. *)
Variable markets : Result (list Crypto).
Variable market_chart : string -> Result PriceData.

Definition await {A : Type} (request : Event) (answer : Result A) : M A :=
  fun w => (answer, {| ml := ml w; events := events w ++ [request] |}).

Definition eligible (crypto : Crypto) : bool :=
  Qle_bool (minVolume CONFIG) (total_volume crypto) &&
  Qle_bool (minMarketCap CONFIG) (market_cap crypto).

Definition getEligibleCryptos : M (list Crypto) :=
  data <- await FetchMarkets markets ;;
  ret (filter eligible data).

Definition getPriceHistory (cryptoId : string) : M PriceData :=
  await (FetchMarketChart cryptoId) (market_chart cryptoId).

Definition analyzeCrypto (crypto : Crypto) : M (option Pattern) :=
  priceData <- getPriceHistory (id crypto) ;;
  ret (analyzePriceData priceData).

(** [ml.predict(pattern)] on the process-wide predictor. *)
Definition ml_predict (p : Pattern) : M number :=
  fun w => (Ok (predict (ml w) p), w).

(** [ml.learn(pattern, outcome)] *)
Definition ml_learn (p : Pattern) (o : string) : M unit :=
  fun w => (Ok tt, {| ml := learn (ml w) p o; events := events w |}).

(** [sendAlert(crypto, analysis, confidence)], given [analysis.pattern]:
    the alert is written to the console and returned. *)
Definition sendAlert (crypto : Crypto) (p : Pattern) (confidence : number)
    : M Alert :=
  let alert := makeAlert crypto p confidence in
  emit (ConsoleLog alert) ;;
  ret alert.

(** The body of the loop over the eligible assets. *)
Definition detect_one (crypto : Crypto) : M unit :=
  analysis <- analyzeCrypto crypto ;;
  match analysis with
  | Some p =>
      confidence <- ml_predict p ;;
      sendAlert crypto p confidence ;;
      ret tt
  | None => ret tt
  end.

Definition detectDoubleBottom : M unit :=
  try_catch
    (eligibleCryptos <- getEligibleCryptos ;;
     for_of eligibleCryptos detect_one)
    (fun error => emit (ConsoleError error)).

End Cycle.

(** ** What a run may do to the world *)

(** A computation that only reads the predictor: it leaves [ml] as it
    found it, and from two worlds with the same [ml] it gives the same
    result and appends the same events. *)
Definition reads_only {A : Type} (m : M A) : Prop :=
  forall w1 w2 : World,
    ml w1 = ml w2 ->
    fst (m w1) = fst (m w2) /\
    ml (snd (m w1)) = ml w1 /\
    ml (snd (m w2)) = ml w2 /\
    exists out : list Event,
      events (snd (m w1)) = events w1 ++ out /\
      events (snd (m w2)) = events w2 ++ out.

(** What processing one asset appends to the event log, as a function of
    the provider's answer, the asset and the predictor. *)
Definition detect_one_output (market_chart : string -> Result PriceData)
    (this : MLPredictor) (crypto : Crypto) : list Event :=
  FetchMarketChart (id crypto) ::
  match market_chart (id crypto) with
  | Ok priceData =>
      match analyzePriceData priceData with
      | Some p => [ConsoleLog (makeAlert crypto p (predict this p))]
      | None => []
      end
  | Throw _ => []
  end.

(** What the loop over the assets appends to the event log: the output of
    each asset up to and including the first whose request throws. *)
Fixpoint loop_events (market_chart : string -> Result PriceData)
    (this : MLPredictor) (cryptos : list Crypto) : list Event :=
  match cryptos with
  | [] => []
  | crypto :: rest =>
      detect_one_output market_chart this crypto ++
      match market_chart (id crypto) with
      | Ok _ => loop_events market_chart this rest
      | Throw _ => []
      end
  end.

(** The error that stops the loop, if any: the first one thrown. *)
Fixpoint loop_error (market_chart : string -> Result PriceData)
    (cryptos : list Crypto) : option Error :=
  match cryptos with
  | [] => None
  | crypto :: rest =>
      match market_chart (id crypto) with
      | Ok _ => loop_error market_chart rest
      | Throw e => Some e
      end
  end.

(** What one cycle appends to the event log. *)
Definition cycle_events (markets : Result (list Crypto))
    (market_chart : string -> Result PriceData) (this : MLPredictor)
    : list Event :=
  FetchMarkets ::
  match markets with
  | Ok data =>
      loop_events market_chart this (filter eligible data) ++
      match loop_error market_chart (filter eligible data) with
      | Some e => [ConsoleError e]
      | None => []
      end
  | Throw e => [ConsoleError e]
  end.

(** ** Sample data *)

(** The sample of the specification's test: prices 90, 95, 110, 92 between
    a first bottom at index 0 and a second bottom at index 4. *)
Definition neckline_sample : PriceData :=
  [(0, 90); (1, 95); (2, 110); (3, 92); (4, 91)].

(** Twenty-two samples of one price: the indices 10 and 11 are bottoms. *)
Definition flat_sample : PriceData :=
  map (fun k => (inject_Z (Z.of_nat k), 1)) (seq 0 22).

(** Fifty-one daily samples with two troughs: 100 at day 10 and 108 at
    day 40, the price rising by one a day away from each trough. *)
Definition double_bottom_sample : PriceData :=
  map (fun k =>
         let z := Z.of_nat k in
         (inject_Z z * (1000 * 60 * 60 * 24),
          if (z <=? 25)%Z then inject_Z (100 + Z.abs (z - 10))
          else inject_Z (108 + Z.abs (z - 40))))
      (seq 0 51).

(** A pattern whose depth is the number written [d], as the tests of the
    estimator use. *)
Definition pattern_of_depth (d : Q) : Pattern :=
  {| firstBottom := {| timestamp := 0; price := 1; index := 0 |};
     secondBottom := {| timestamp := 0; price := 1; index := 0 |};
     neckline := Fin 1;
     depth := literal d;
     timespan := Fin 0 |}.

(** The pattern of the specification's test: neckline 100, second bottom
    priced 90. *)
Definition alert_sample : Pattern :=
  {| firstBottom := {| timestamp := 0; price := 88; index := 10 |};
     secondBottom :=
       {| timestamp := 30 * (1000 * 60 * 60 * 24); price := 90; index := 40 |};
     neckline := Fin 100;
     depth := literal (2 / 88);
     timespan := Fin 30 |}.


(** A pattern with the given second bottom price and neckline. *)
Definition pattern_with (secondPrice neck : Q) : Pattern :=
  {| firstBottom := {| timestamp := 0; price := secondPrice; index := 10 |};
     secondBottom :=
       {| timestamp := 30 * (1000 * 60 * 60 * 24);
          price := secondPrice; index := 40 |};
     neckline := Fin neck;
     depth := Fin 0;
     timespan := Fin 30 |}.

(** An asset and a provider for the examples: the provider answers the
    two-trough history for every asset but ["fail"], whose request throws. *)
Definition sample_crypto (name : string) : Crypto :=
  {| id := name;
     symbol := name;
     current_price := 120;
     market_cap := 50000000;
     total_volume := 2000000 |}.

Definition sample_chart (cryptoId : string) : Result PriceData :=
  if String.eqb cryptoId "fail" then Throw "fetch failed"%string
  else Ok double_bottom_sample.

Definition sample_markets : Result (list Crypto) :=
  Ok [sample_crypto "btc"; sample_crypto "fail"; sample_crypto "eth"].

Definition sample_world (evs : list Event) : World :=
  {| ml := learn ml_new (pattern_of_depth 0.05) "success"; events := evs |}.

(** * Properties *)

(** ** Arrays *)

Section SliceFacts.

Context {A : Type}.
Implicit Types (l : list A) (b e j k : nat).

Lemma slice_length l b e :
  List.length (slice l b e) = Nat.min (e - b) (List.length l - b).
Proof.
  unfold slice. now rewrite length_firstn, length_skipn.
Qed.

Lemma slice_nth l b e k d :
  (k < e - b)%nat -> nth k (slice l b e) d = nth (b + k) l d.
Proof.
  intros Hk. unfold slice.
  rewrite nth_firstn.
  apply Nat.ltb_lt in Hk. rewrite Hk.
  apply nth_skipn.
Qed.

(** Membership in a slice, by position in the array. *)
Lemma slice_In l b e d x :
  In x (slice l b e) <->
  exists j, (b <= j < e)%nat /\ (j < List.length l)%nat /\ x = nth j l d.
Proof.
  split.
  - intros Hin. apply (In_nth _ _ d) in Hin.
    destruct Hin as [k [Hk Hx]]. rewrite slice_length in Hk.
    exists (b + k)%nat. rewrite slice_nth in Hx by lia.
    repeat split; try lia. now symmetry.
  - intros [j [Hj [Hlen ->]]].
    replace j with (b + (j - b))%nat by lia.
    rewrite <- (slice_nth l b e) by lia.
    apply nth_In. rewrite slice_length. lia.
Qed.

Lemma every_slice (f : A -> bool) l b e d :
  every (slice l b e) f = true <->
  forall j, (b <= j < e)%nat -> (j < List.length l)%nat -> f (nth j l d) = true.
Proof.
  unfold every. rewrite forallb_forall. split.
  - intros H j Hj Hlen. apply H. apply (slice_In l b e d). now exists j.
  - intros H x Hx. apply (slice_In l b e d) in Hx.
    destruct Hx as [j [Hj [Hlen ->]]]. now apply H.
Qed.

Lemma slice_last_app l (x y : A) : slice_last (l ++ [x; y]) 2 = [x; y].
Proof.
  unfold slice_last. rewrite length_app. simpl.
  replace (List.length l + 2 - 2)%nat with (List.length l + 0)%nat by lia.
  now rewrite skipn_app, Nat.add_0_r, skipn_all, Nat.sub_diag.
Qed.

End SliceFacts.

(** ** Comparisons of rationals *)

Lemma Qlt_bool_iff (x y : Q) : Qlt_bool x y = true <-> x < y.
Proof.
  unfold Qlt_bool. rewrite negb_true_iff.
  destruct (Qle_bool y x) eqn:E.
  - apply Qle_bool_iff in E. split; [discriminate | intros H; lra].
  - split; [intros _ | reflexivity].
    apply Qnot_le_lt. intros H. apply Qle_bool_iff in H. congruence.
Qed.

Lemma Qle_bool_false_iff (x y : Q) : Qle_bool x y = false <-> y < x.
Proof.
  rewrite <- Qlt_bool_iff. unfold Qlt_bool.
  now rewrite negb_true_iff.
Qed.

Lemma Qlt_bool_false_iff (x y : Q) : Qlt_bool x y = false <-> y <= x.
Proof.
  unfold Qlt_bool. now rewrite negb_false_iff, Qle_bool_iff.
Qed.

(** ** Powers of two *)

Lemma pow2_pos (e : Z) : 0 < 2 ^ e.
Proof. apply Qpower_0_lt. reflexivity. Qed.

Lemma pow2_plus (a b : Z) : 2 ^ (a + b) == 2 ^ a * 2 ^ b.
Proof. apply Qpower_plus. discriminate. Qed.

Lemma pow2_le (a b : Z) : (a <= b)%Z -> 2 ^ a <= 2 ^ b.
Proof. intros H. apply Qpower_le_compat_l; [exact H | discriminate]. Qed.

Lemma pow2_lt_inv (a b : Z) : 2 ^ a < 2 ^ b -> (a < b)%Z.
Proof. intros H. apply (Qpower_lt_compat_l_inv 2); [exact H | reflexivity]. Qed.

Lemma pow2_inject (n : Z) : (0 <= n)%Z -> inject_Z (2 ^ n) == 2 ^ n.
Proof. intros H. now rewrite Zpower_Qpower. Qed.

(** ** The binary logarithm *)

Lemma Zlog2_bounds (n : Z) :
  (0 < n)%Z ->
  2 ^ Z.log2 n <= inject_Z n /\ inject_Z n < 2 ^ (Z.log2 n + 1).
Proof.
  intros Hn. destruct (Z.log2_spec n Hn) as [Hlo Hhi].
  pose proof (Z.log2_nonneg n) as H0.
  rewrite <- !pow2_inject by lia.
  rewrite <- Zle_Qle, <- Zlt_Qlt. unfold Z.succ in Hhi. now split.
Qed.

Lemma Qlog2_spec (a : Q) :
  0 < a -> 2 ^ Qlog2 a <= a /\ a < 2 ^ (Qlog2 a + 1).
Proof.
  intros Ha. destruct a as [n d].
  assert (Hn : (0 < n)%Z).
  { unfold Qlt in Ha. simpl in Ha. lia. }
  destruct (Zlog2_bounds n Hn) as [Hnlo Hnhi].
  destruct (Zlog2_bounds (Z.pos d) (Pos2Z.is_pos d)) as [Hdlo Hdhi].
  assert (Hd : 0 < inject_Z (Z.pos d)) by reflexivity.
  assert (Hq : n # d == inject_Z n / inject_Z (Z.pos d))
    by apply Qmake_Qdiv.
  unfold Qlog2. cbn [Qnum Qden].
  set (ln := Z.log2 n) in *. set (ld := Z.log2 (Z.pos d)) in *.
  set (k := (ln - ld)%Z).
  assert (Hup : n # d < 2 ^ (k + 1)).
  { rewrite Hq. apply Qlt_shift_div_r; [exact Hd |].
    apply Qlt_le_trans with (2 ^ ((k + 1) + ld));
      [replace ((k + 1) + ld)%Z with (ln + 1)%Z by (unfold k; lia);
       exact Hnhi |].
    rewrite pow2_plus. apply Qmult_le_l; [apply pow2_pos | exact Hdlo]. }
  assert (Hdown : 2 ^ (k - 1) <= n # d).
  { rewrite Hq. apply Qle_shift_div_l; [exact Hd |].
    apply Qle_trans with (2 ^ ((k - 1) + (ld + 1)));
      [| replace ((k - 1) + (ld + 1))%Z with ln by (unfold k; lia);
         exact Hnlo].
    rewrite pow2_plus. apply Qmult_le_l; [apply pow2_pos |].
    now apply Qlt_le_weak. }
  destruct (Qle_bool (2 ^ k) (n # d)) eqn:E.
  - apply Qle_bool_iff in E. now split.
  - apply Qle_bool_false_iff in E.
    replace (k - 1 + 1)%Z with k by lia. now split.
Qed.

Lemma Qlog2_mono (x y : Q) : 0 < x -> x <= y -> (Qlog2 x <= Qlog2 y)%Z.
Proof.
  intros Hx Hxy.
  destruct (Qlog2_spec x Hx) as [Hlo _].
  destruct (Qlog2_spec y) as [_ Hhi]; [lra |].
  assert (H : 2 ^ Qlog2 x < 2 ^ (Qlog2 y + 1)) by lra.
  apply pow2_lt_inv in H. lia.
Qed.

(** ** Rounding to the nearest integer, ties to even *)

Lemma rne_floor (x : Q) : (Qfloor x <= rne x <= Qfloor x + 1)%Z.
Proof.
  unfold rne. cbv zeta.
  destruct (Qcompare (x - inject_Z (Qfloor x)) (1 # 2)); try lia.
  destruct (Z.even (Qfloor x)); lia.
Qed.

Lemma rne_mono (x y : Q) : x <= y -> (rne x <= rne y)%Z.
Proof.
  intros Hxy. pose proof (Qfloor_resp_le x y Hxy) as Hf.
  destruct (Z.eq_dec (Qfloor x) (Qfloor y)) as [E | E].
  - unfold rne. cbv zeta. rewrite E. set (f := Qfloor y).
    destruct (Qcompare_spec (x - inject_Z f) (1 # 2)) as [Hx | Hx | Hx];
      destruct (Qcompare_spec (y - inject_Z f) (1 # 2)) as [Hy | Hy | Hy];
      try lia; try (exfalso; lra); destruct (Z.even f); lia.
  - pose proof (rne_floor x). pose proof (rne_floor y). lia.
Qed.

Lemma rne_proper (x y : Q) : x == y -> rne x = rne y.
Proof.
  intros E. apply Z.le_antisymm; apply rne_mono; rewrite E; apply Qle_refl.
Qed.

Lemma rne_Z (z : Z) : rne (inject_Z z) = z.
Proof.
  unfold rne. cbv zeta. rewrite Qfloor_Z.
  destruct (Qcompare_spec (inject_Z z - inject_Z z) (1 # 2)) as [H | H | H];
    try reflexivity; exfalso; lra.
Qed.

Lemma rne_nonneg (x : Q) : 0 <= x -> (0 <= rne x)%Z.
Proof.
  intros Hx. pose proof (rne_mono 0 x Hx) as H.
  change 0 with (inject_Z 0) in H. now rewrite rne_Z in H.
Qed.

(** ** Rounding a positive rational to the grid of its binade *)

Lemma ulp_exp_log (a : Q) : (Qlog2 a - 52 <= ulp_exp a)%Z.
Proof. unfold ulp_exp. lia. Qed.

Lemma ulp_exp_mono (x y : Q) : 0 < x -> x <= y -> (ulp_exp x <= ulp_exp y)%Z.
Proof.
  intros Hx Hxy. pose proof (Qlog2_mono x y Hx Hxy). unfold ulp_exp. lia.
Qed.

Lemma round_pos_nonneg (a : Q) : 0 <= a -> 0 <= round_pos a.
Proof.
  intros Ha. unfold round_pos.
  apply Qmult_le_0_compat; [| apply Qlt_le_weak, pow2_pos].
  change 0 with (inject_Z 0). rewrite <- Zle_Qle. apply rne_nonneg.
  apply Qle_shift_div_l; [apply pow2_pos | now rewrite Qmult_0_l].
Qed.

Lemma round_pos_le_top (a : Q) :
  0 < a -> round_pos a <= 2 ^ (ulp_exp a + 53).
Proof.
  intros Ha. destruct (Qlog2_spec a Ha) as [_ Hhi].
  pose proof (ulp_exp_log a) as He. set (e := ulp_exp a) in *.
  assert (Htop : a < 2 ^ 53 * 2 ^ e).
  { apply Qlt_le_trans with (2 ^ (Qlog2 a + 1)); [exact Hhi |].
    rewrite <- pow2_plus. apply pow2_le. lia. }
  assert (Hm : (rne (a / 2 ^ e) <= 2 ^ 53)%Z).
  { rewrite <- (rne_Z (2 ^ 53)). apply rne_mono.
    rewrite pow2_inject by lia.
    apply Qlt_le_weak, Qlt_shift_div_r; [apply pow2_pos | exact Htop]. }
  unfold round_pos. fold e.
  replace (e + 53)%Z with (53 + e)%Z by lia. rewrite pow2_plus.
  apply Qmult_le_compat_r; [| apply Qlt_le_weak, pow2_pos].
  rewrite <- (pow2_inject 53) by lia. now rewrite <- Zle_Qle.
Qed.

Lemma round_pos_ge_bottom (a : Q) :
  0 < a -> (-1074 < ulp_exp a)%Z -> 2 ^ (ulp_exp a + 52) <= round_pos a.
Proof.
  intros Ha Hnorm. destruct (Qlog2_spec a Ha) as [Hlo _].
  assert (He : ulp_exp a = (Qlog2 a - 52)%Z) by (unfold ulp_exp in *; lia).
  set (e := ulp_exp a) in *.
  assert (Hbot : 2 ^ 52 * 2 ^ e <= a).
  { rewrite <- pow2_plus. replace (52 + e)%Z with (Qlog2 a) by lia.
    exact Hlo. }
  assert (Hm : (2 ^ 52 <= rne (a / 2 ^ e))%Z).
  { rewrite <- (rne_Z (2 ^ 52)) at 1. apply rne_mono.
    rewrite pow2_inject by lia.
    apply Qle_shift_div_l; [apply pow2_pos | exact Hbot]. }
  unfold round_pos. fold e.
  replace (e + 52)%Z with (52 + e)%Z by lia. rewrite pow2_plus.
  apply Qmult_le_compat_r; [| apply Qlt_le_weak, pow2_pos].
  rewrite <- (pow2_inject 52) by lia. now rewrite <- Zle_Qle.
Qed.

Lemma round_pos_mono (x y : Q) :
  0 < x -> x <= y -> round_pos x <= round_pos y.
Proof.
  intros Hx Hxy. assert (Hy : 0 < y) by lra.
  pose proof (ulp_exp_mono x y Hx Hxy) as He.
  destruct (Z.eq_dec (ulp_exp x) (ulp_exp y)) as [E | E].
  - unfold round_pos. rewrite E.
    apply Qmult_le_compat_r; [| apply Qlt_le_weak, pow2_pos].
    rewrite <- Zle_Qle. apply rne_mono.
    apply Qmult_le_compat_r; [exact Hxy |].
    apply Qlt_le_weak, Qinv_lt_0_compat, pow2_pos.
  - apply Qle_trans with (2 ^ (ulp_exp x + 53));
      [now apply round_pos_le_top |].
    apply Qle_trans with (2 ^ (ulp_exp y + 52)).
    + apply pow2_le. lia.
    + apply round_pos_ge_bottom; [exact Hy |].
      assert (-1074 <= ulp_exp x)%Z by (unfold ulp_exp; lia). lia.
Qed.

Lemma round_pos_proper (x y : Q) :
  0 < x -> x == y -> round_pos x == round_pos y.
Proof.
  intros Hx E. apply Qle_antisym; apply round_pos_mono; lra.
Qed.

(** ** Rounding to binary64 *)

Lemma round64_zero (q : Q) : q == 0 -> round64 q = Fin 0.
Proof.
  intros Hq. unfold round64. apply Qeq_bool_iff in Hq. now rewrite Hq.
Qed.

Lemma round64_pos (q : Q) :
  0 < q ->
  round64 q =
  if Qle_bool (2 ^ 1024) (Qred (round_pos q)) then PosInf
  else Fin (Qred (round_pos q)).
Proof.
  intros Hq. unfold round64.
  destruct (Qeq_bool q 0) eqn:E; [apply Qeq_bool_iff in E; lra |].
  replace (Qlt_bool 0 q) with true by (symmetry; now apply Qlt_bool_iff).
  cbv zeta.
  replace (Qred (round_pos (Qabs q))) with (Qred (round_pos q));
    [reflexivity |].
  apply Qred_complete. apply round_pos_proper; [exact Hq |].
  symmetry. apply Qabs_pos. lra.
Qed.

Lemma round64_neg (q : Q) :
  q < 0 ->
  round64 q =
  if Qle_bool (2 ^ 1024) (Qred (round_pos (- q))) then NegInf
  else Fin (- Qred (round_pos (- q))).
Proof.
  intros Hq. unfold round64.
  destruct (Qeq_bool q 0) eqn:E; [apply Qeq_bool_iff in E; lra |].
  replace (Qlt_bool 0 q) with false
    by (symmetry; apply Qlt_bool_false_iff; lra).
  cbv zeta.
  replace (Qred (round_pos (Qabs q))) with (Qred (round_pos (- q)));
    [reflexivity |].
  apply Qred_complete. apply round_pos_proper; [lra |].
  symmetry. apply Qabs_neg. lra.
Qed.

Lemma round64_not_nan (q : Q) : round64 q <> NaN.
Proof.
  unfold round64. destruct (Qeq_bool q 0); [discriminate |]. cbv zeta.
  destruct (Qle_bool _ _); destruct (Qlt_bool 0 q); discriminate.
Qed.

Lemma round64_proper (x y : Q) : x == y -> round64 x = round64 y.
Proof.
  intros E.
  destruct (Q_dec x 0) as [[Hneg | Hpos] | Hzero].
  - rewrite (round64_neg x Hneg), (round64_neg y) by lra.
    replace (Qred (round_pos (- y))) with (Qred (round_pos (- x)));
      [reflexivity |].
    apply Qred_complete, round_pos_proper; lra.
  - rewrite (round64_pos x Hpos), (round64_pos y) by lra.
    replace (Qred (round_pos y)) with (Qred (round_pos x));
      [reflexivity |].
    apply Qred_complete, round_pos_proper; lra.
  - rewrite (round64_zero x Hzero), (round64_zero y); [reflexivity | lra].
Qed.

Lemma round64_mono (x y : Q) :
  x <= y -> leb (round64 x) (round64 y) = true.
Proof.
  intros Hxy.
  destruct (Q_dec x 0) as [[Hx | Hx] | Hx];
    destruct (Q_dec y 0) as [[Hy | Hy] | Hy]; try (exfalso; lra).
  - rewrite (round64_neg x Hx), (round64_neg y Hy).
    assert (Hr : round_pos (- y) <= round_pos (- x))
      by (apply round_pos_mono; lra).
    rewrite <- (Qred_correct (round_pos (- y))) in Hr.
    rewrite <- (Qred_correct (round_pos (- x))) in Hr.
    destruct (Qle_bool (2 ^ 1024) (Qred (round_pos (- x)))) eqn:Ex;
      [now destruct (Qle_bool _ (Qred (round_pos (- y)))) |].
    destruct (Qle_bool (2 ^ 1024) (Qred (round_pos (- y)))) eqn:Ey.
    + apply Qle_bool_iff in Ey. apply Qle_bool_false_iff in Ex. lra.
    + cbn [leb]. apply Qle_bool_iff. lra.
  - rewrite (round64_neg x Hx), (round64_pos y Hy).
    pose proof (round_pos_nonneg (- x)) as Hnx.
    pose proof (round_pos_nonneg y) as Hny.
    rewrite <- (Qred_correct (round_pos (- x))) in Hnx.
    rewrite <- (Qred_correct (round_pos y)) in Hny.
    destruct (Qle_bool _ (Qred (round_pos (- x))));
      destruct (Qle_bool _ (Qred (round_pos y))); try reflexivity.
    cbn [leb]. apply Qle_bool_iff. lra.
  - rewrite (round64_neg x Hx), (round64_zero y Hy).
    pose proof (round_pos_nonneg (- x)) as Hnx.
    rewrite <- (Qred_correct (round_pos (- x))) in Hnx.
    destruct (Qle_bool _ (Qred (round_pos (- x)))); [reflexivity |].
    cbn [leb]. apply Qle_bool_iff. lra.
  - rewrite (round64_pos x Hx), (round64_pos y Hy).
    assert (Hr : round_pos x <= round_pos y)
      by (apply round_pos_mono; lra).
    rewrite <- (Qred_correct (round_pos x)) in Hr.
    rewrite <- (Qred_correct (round_pos y)) in Hr.
    destruct (Qle_bool (2 ^ 1024) (Qred (round_pos y))) eqn:Ey;
      [now destruct (Qle_bool _ (Qred (round_pos x))) |].
    destruct (Qle_bool (2 ^ 1024) (Qred (round_pos x))) eqn:Ex.
    + apply Qle_bool_iff in Ex. apply Qle_bool_false_iff in Ey. lra.
    + cbn [leb]. apply Qle_bool_iff. lra.
  - rewrite (round64_zero x Hx), (round64_pos y Hy).
    pose proof (round_pos_nonneg y) as Hny.
    rewrite <- (Qred_correct (round_pos y)) in Hny.
    destruct (Qle_bool _ (Qred (round_pos y))); [reflexivity |].
    cbn [leb]. apply Qle_bool_iff. lra.
  - now rewrite (round64_zero x Hx), (round64_zero y Hy).
Qed.

(** ** The bottom detector *)

Lemma findBottoms_fold priceData (l : list nat) (acc : list Bottom) :
  fold_left (findBottoms_step priceData) l acc =
  acc ++ map (bottom_at priceData) (filter (isBottom priceData) l).
Proof.
  revert acc. induction l as [| i l IH]; intros acc; simpl.
  - now rewrite app_nil_r.
  - rewrite IH. unfold findBottoms_step.
    destruct (isBottom priceData i); simpl.
    + now rewrite <- app_assoc.
    + reflexivity.
Qed.

(** The loop as a filter over the admissible indices. *)
Lemma findBottoms_filter priceData :
  findBottoms priceData =
  map (bottom_at priceData)
      (filter (isBottom priceData) (seq 10 (List.length priceData - 10 - 10))).
Proof.
  unfold findBottoms. now rewrite findBottoms_fold.
Qed.

Lemma findBottoms_index priceData :
  map index (findBottoms priceData) =
  filter (isBottom priceData) (seq 10 (List.length priceData - 10 - 10)).
Proof.
  rewrite findBottoms_filter, map_map. simpl. apply map_id.
Qed.

(** The window test, index by index. *)
Lemma isBottom_iff priceData (i : nat) :
  (10 <= i)%nat -> (i + 10 < List.length priceData)%nat ->
  isBottom priceData i = true <->
  (forall j, (i - 10 <= j < i)%nat ->
     snd (at_index priceData i) <= snd (at_index priceData j)) /\
  (forall j, (i < j <= i + 10)%nat ->
     snd (at_index priceData i) <= snd (at_index priceData j)).
Proof.
  intros Hlo Hhi. unfold isBottom. cbv zeta.
  rewrite andb_true_iff, !(every_slice _ priceData _ _ (0, 0)).
  unfold at_index. split.
  - intros [Hb Ha]. split; intros j Hj; apply Qle_bool_iff.
    + apply Hb; lia.
    + apply Ha; lia.
  - intros [Hb Ha]. split; intros j Hj Hlen; apply Qle_bool_iff.
    + apply Hb; lia.
    + apply Ha; lia.
Qed.

Lemma seq_sorted (a n : nat) : StronglySorted Nat.lt (seq a n).
Proof.
  revert a. induction n as [| n IH]; intros a; simpl; constructor.
  - apply IH.
  - apply Forall_forall. intros x Hx. apply in_seq in Hx.
    unfold Nat.lt. lia.
Qed.

Lemma filter_sorted {A : Type} (R : A -> A -> Prop) (f : A -> bool) l :
  StronglySorted R l -> StronglySorted R (filter f l).
Proof.
  induction 1 as [| x l Hs IH Hall]; simpl.
  - constructor.
  - destruct (f x); [constructor |]; trivial.
    apply Forall_forall. intros y Hy. apply filter_In in Hy.
    rewrite Forall_forall in Hall. now apply Hall.
Qed.

(** C2. [findBottoms] reports exactly the indices that have ten samples on
    each side and whose price is at most every price of the ten samples
    before and of the ten samples after; the bottom reported for an index
    carries the timestamp and the price of that sample; the indices come out
    in strictly ascending order; fewer than 21 samples give no bottom. *)
Theorem findBottoms_spec (priceData : PriceData) :
  (forall b : Bottom,
     In b (findBottoms priceData) <->
     exists i : nat,
       b = bottom_at priceData i /\
       (10 <= i)%nat /\ (i + 10 < List.length priceData)%nat /\
       (forall j, (i - 10 <= j < i)%nat ->
          snd (at_index priceData i) <= snd (at_index priceData j)) /\
       (forall j, (i < j <= i + 10)%nat ->
          snd (at_index priceData i) <= snd (at_index priceData j))) /\
  StronglySorted Nat.lt (map index (findBottoms priceData)) /\
  ((List.length priceData < 21)%nat -> findBottoms priceData = []).
Proof.
  split; [| split].
  - intros b. rewrite findBottoms_filter, in_map_iff. split.
    + intros [i [Hb Hi]]. apply filter_In in Hi. destruct Hi as [Hseq Hbot].
      apply in_seq in Hseq. exists i.
      assert (Hlo : (10 <= i)%nat) by lia.
      assert (Hhi : (i + 10 < List.length priceData)%nat) by lia.
      apply (isBottom_iff priceData i Hlo Hhi) in Hbot.
      destruct Hbot as [Hbefore Hafter]. auto.
    + intros [i [Hb [Hlo [Hhi [Hbefore Hafter]]]]]. exists i.
      split; [now symmetry |]. apply filter_In. split.
      * apply in_seq. lia.
      * apply (isBottom_iff priceData i Hlo Hhi). now split.
  - rewrite findBottoms_index. apply filter_sorted, seq_sorted.
  - intros Hshort. rewrite findBottoms_filter.
    replace (List.length priceData - 10 - 10)%nat with 0%nat by lia.
    reflexivity.
Qed.

Lemma findBottoms_spec_witness :
  findBottoms neckline_sample = [] /\
  In (bottom_at double_bottom_sample 40) (findBottoms double_bottom_sample).
Proof.
  split.
  - apply (proj2 (proj2 (findBottoms_spec neckline_sample))).
    simpl. lia.
  - apply (proj1 (findBottoms_spec double_bottom_sample)).
    exists 40%nat.
    split; [reflexivity | split; [lia | split; [simpl; lia |]]].
    split; intros j Hj;
      assert (Hin : In j (seq 30 21)) by (apply in_seq; lia);
      simpl in Hin;
      repeat (destruct Hin as [<- | Hin]; [vm_compute; discriminate |]);
      contradiction.
Defined.

(** ** The neckline *)

Lemma max2_fold_fin (qs : list Q) (a : Q) :
  exists m : Q,
    fold_left max2 (map Fin qs) (Fin a) = Fin m /\
    In m (a :: qs) /\
    forall q, In q (a :: qs) -> q <= m.
Proof.
  revert a. induction qs as [| x qs IH]; intros a.
  - exists a. simpl. repeat split; auto.
    intros q [<- | []]. apply Qle_refl.
  - simpl fold_left. simpl max2.
    destruct (Qle_bool a x) eqn:E.
    + apply Qle_bool_iff in E.
      destruct (IH x) as [m [Hm [Hin Hub]]].
      exists m. split; [exact Hm | split].
      * simpl in *. tauto.
      * intros q [<- | Hq]; [| now apply Hub].
        apply Qle_trans with x; [exact E |]. apply Hub. now left.
    + apply Qle_bool_false_iff in E.
      destruct (IH a) as [m [Hm [Hin Hub]]].
      exists m. split; [exact Hm | split].
      * simpl in *. tauto.
      * intros q [<- | [<- | Hq]].
        -- apply Hub. now left.
        -- apply Qle_trans with a; [lra |]. apply Hub. now left.
        -- apply Hub. now right.
Qed.

(** [Math.max] of at least one finite argument is one of the arguments and
    bounds them all. *)
Lemma maximum_fin (qs : list Q) :
  qs <> [] ->
  exists m : Q,
    maximum (map Fin qs) = Fin m /\ In m qs /\ forall q, In q qs -> q <= m.
Proof.
  destruct qs as [| x qs]; [congruence | intros _].
  unfold maximum. simpl. apply max2_fold_fin.
Qed.

Lemma maximum_nil : maximum [] = NegInf.
Proof. reflexivity. Qed.

(** The prices of the span [slice priceData b e]. *)
Lemma span_prices_In (priceData : PriceData) (b e : nat) (q : Q) :
  In q (map snd (slice priceData b e)) <->
  exists j, (b <= j < e)%nat /\ (j < List.length priceData)%nat /\
            q = snd (at_index priceData j).
Proof.
  rewrite in_map_iff. unfold at_index. split.
  - intros [p [<- Hp]]. apply (slice_In priceData b e (0, 0)) in Hp.
    destruct Hp as [j [Hj [Hlen ->]]]. now exists j.
  - intros [j [Hj [Hlen ->]]]. exists (nth j priceData (0, 0)).
    split; [reflexivity |]. apply (slice_In priceData b e (0, 0)). now exists j.
Qed.

Lemma calculateNeckline_map (priceData : PriceData) (f s : Bottom) :
  calculateNeckline priceData f s =
  maximum (map Fin (map snd (slice priceData (index f) (index s)))).
Proof.
  unfold calculateNeckline. now rewrite map_map.
Qed.

(** On a span that reaches into the array the neckline is a price of the
    span and bounds every price of the span. *)
Lemma calculateNeckline_max (priceData : PriceData) (f s : Bottom) :
  (index f < index s)%nat -> (index f < List.length priceData)%nat ->
  exists m : Q,
    calculateNeckline priceData f s = Fin m /\
    (exists j, (index f <= j < index s)%nat /\
               (j < List.length priceData)%nat /\
               m = snd (at_index priceData j)) /\
    (forall j, (index f <= j < index s)%nat ->
               (j < List.length priceData)%nat ->
               snd (at_index priceData j) <= m).
Proof.
  intros Hlt Hlen. rewrite calculateNeckline_map.
  destruct (maximum_fin (map snd (slice priceData (index f) (index s))))
    as [m [Hm [Hin Hub]]].
  - intros Hnil. apply map_eq_nil in Hnil.
    apply (f_equal (@List.length PricePoint)) in Hnil.
    rewrite slice_length in Hnil. cbn [List.length] in Hnil. lia.
  - exists m. split; [exact Hm | split].
    + now apply span_prices_In.
    + intros j Hj Hj'. apply Hub. apply span_prices_In. now exists j.
Qed.

(** C4. For two bottoms with [firstBottom.index < secondBottom.index] the
    neckline bounds every price from the first bottom's index up to, not
    including, the second bottom's index, and it is one of those prices as
    soon as the first index lies in the price sequence (it is [-Infinity]
    when the span is empty); the span 90, 95, 110, 92 yields 110. *)
Theorem calculateNeckline_spec :
  (forall (priceData : PriceData) (f s : Bottom),
     (index f < index s)%nat ->
     (forall j, (index f <= j < index s)%nat ->
                (j < List.length priceData)%nat ->
                leb (Fin (snd (at_index priceData j)))
                    (calculateNeckline priceData f s) = true) /\
     ((index f < List.length priceData)%nat ->
      exists j, (index f <= j < index s)%nat /\
                (j < List.length priceData)%nat /\
                calculateNeckline priceData f s =
                Fin (snd (at_index priceData j))) /\
     ((List.length priceData <= index f)%nat ->
      calculateNeckline priceData f s = NegInf)) /\
  calculateNeckline neckline_sample
    (bottom_at neckline_sample 0) (bottom_at neckline_sample 4) = Fin 110.
Proof.
  split; [| reflexivity].
  intros priceData f s Hlt. split; [| split].
  - intros j Hj Hlen.
    destruct (calculateNeckline_max priceData f s Hlt) as [m [-> [_ Hub]]].
    + lia.
    + simpl. apply Qle_bool_iff. now apply Hub.
  - intros Hlen.
    destruct (calculateNeckline_max priceData f s Hlt Hlen)
      as [m [-> [[j [Hj [Hj' ->]]] _]]].
    now exists j.
  - intros Hout. rewrite calculateNeckline_map.
    assert (Hnil : slice priceData (index f) (index s) = []).
    { apply length_zero_iff_nil. rewrite slice_length. lia. }
    now rewrite Hnil.
Qed.

Lemma calculateNeckline_spec_witness :
  leb (Fin 95) (calculateNeckline neckline_sample
                  (bottom_at neckline_sample 0) (bottom_at neckline_sample 4))
  = true.
Proof.
  apply (proj1 (proj1 calculateNeckline_spec neckline_sample
                  (bottom_at neckline_sample 0) (bottom_at neckline_sample 4)
                  ltac:(simpl; lia))
               1%nat); simpl; lia.
Defined.

Lemma slice_single {A : Type} (l : list A) (i : nat) (d : A) :
  (i < List.length l)%nat -> slice l i (S i) = [nth i l d].
Proof.
  intros Hi.
  assert (Hlen : List.length (slice l i (S i)) = 1%nat)
    by (rewrite slice_length; lia).
  assert (Hnth : nth 0 (slice l i (S i)) d = nth (i + 0) l d)
    by (apply slice_nth; lia).
  rewrite Nat.add_0_r in Hnth.
  destruct (slice l i (S i)) as [| x [| y r]]; simpl in *;
    try discriminate. now subst.
Qed.

(** A bottom reported by the detector sits inside the price sequence and
    carries the price of its own sample. *)
Lemma findBottoms_In_inv (priceData : PriceData) (b : Bottom) :
  In b (findBottoms priceData) ->
  (10 <= index b)%nat /\ (index b + 10 < List.length priceData)%nat /\
  price b = snd (at_index priceData (index b)) /\
  timestamp b = fst (at_index priceData (index b)).
Proof.
  rewrite findBottoms_filter, in_map_iff.
  intros [i [<- Hi]]. apply filter_In in Hi. destruct Hi as [Hseq _].
  apply in_seq in Hseq. simpl. repeat split; lia.
Qed.

(** C8. For two bottoms that [findBottoms] reports on one price sequence,
    the first at a smaller index than the second, the neckline is the
    maximum over a span that is not empty and starts with the first
    bottom's own sample: it is a finite number, the price of one of the
    samples from the first bottom's index up to, not including, the
    second's, at least every price there and so at least the first bottom's
    price; when the second bottom is at the very next index it is exactly
    the first bottom's price. *)
Theorem calculateNeckline_of_bottoms (priceData : PriceData) (f s : Bottom) :
  In f (findBottoms priceData) ->
  In s (findBottoms priceData) ->
  (index f < index s)%nat ->
  slice priceData (index f) (index s) <> [] /\
  nth 0 (slice priceData (index f) (index s)) (0, 0) =
  at_index priceData (index f) /\
  price f = snd (at_index priceData (index f)) /\
  (exists m : Q,
     calculateNeckline priceData f s = Fin m /\
     price f <= m /\
     (exists j, (index f <= j < index s)%nat /\
                m = snd (at_index priceData j)) /\
     (forall j, (index f <= j < index s)%nat ->
                snd (at_index priceData j) <= m)) /\
  (index s = S (index f) -> calculateNeckline priceData f s = Fin (price f)).
Proof.
  intros Hf Hs Hlt.
  destruct (findBottoms_In_inv priceData f Hf) as [_ [Hlen [Hprice _]]].
  destruct (findBottoms_In_inv priceData s Hs) as [_ [Hslen _]].
  assert (Hin : (index f < List.length priceData)%nat) by lia.
  split; [| split; [| split; [exact Hprice | split]]].
  - intros Hnil. apply (f_equal (@List.length PricePoint)) in Hnil.
    rewrite slice_length in Hnil. cbn [List.length] in Hnil. lia.
  - rewrite slice_nth by lia. unfold at_index. now rewrite Nat.add_0_r.
  - destruct (calculateNeckline_max priceData f s Hlt Hin)
      as [m [Hm [[j [Hj [_ Hatt]]] Hub]]].
    exists m. split; [exact Hm | split; [| split]].
    + rewrite Hprice. apply Hub; lia.
    + now exists j.
    + intros k Hk. apply Hub; lia.
  - intros Hadj. unfold calculateNeckline. rewrite Hadj.
    rewrite (slice_single priceData (index f) (0, 0) Hin).
    rewrite Hprice. reflexivity.
Qed.

Lemma calculateNeckline_of_bottoms_witness :
  calculateNeckline double_bottom_sample
    (bottom_at double_bottom_sample 10) (bottom_at double_bottom_sample 40)
  = Fin 122 /\
  price (bottom_at double_bottom_sample 10) = 100 /\
  exists m : Q,
    calculateNeckline double_bottom_sample
      (bottom_at double_bottom_sample 10)
      (bottom_at double_bottom_sample 40) = Fin m /\
    price (bottom_at double_bottom_sample 10) <= m /\
    (exists j, (index (bottom_at double_bottom_sample 10) <= j
                < index (bottom_at double_bottom_sample 40))%nat /\
               m = snd (at_index double_bottom_sample j)) /\
    (forall j, (index (bottom_at double_bottom_sample 10) <= j
                < index (bottom_at double_bottom_sample 40))%nat ->
               snd (at_index double_bottom_sample j) <= m).
Proof.
  split; [vm_compute; reflexivity | split; [vm_compute; reflexivity |]].
  apply (calculateNeckline_of_bottoms double_bottom_sample
           (bottom_at double_bottom_sample 10)
           (bottom_at double_bottom_sample 40)).
  - vm_compute. left. reflexivity.
  - vm_compute. right. left. reflexivity.
  - simpl. lia.
Defined.

(** Two adjacent bottoms of the flat sample: the neckline is the first
    bottom's price. *)
Example calculateNeckline_adjacent :
  calculateNeckline flat_sample
    (bottom_at flat_sample 10) (bottom_at flat_sample 11) =
  Fin (price (bottom_at flat_sample 10)).
Proof. reflexivity. Qed.

(** ** The pattern validator *)

Lemma leb_fin_between (a b : Q) (r : number) :
  leb (Fin a) r = true -> leb r (Fin b) = true ->
  exists q : Q, r = Fin q /\ a <= q /\ q <= b.
Proof.
  destruct r as [q | | |]; simpl; try discriminate.
  intros Ha Hb. apply Qle_bool_iff in Ha, Hb. now exists q.
Qed.

Lemma leb_trans (a b c : number) :
  leb a b = true -> leb b c = true -> leb a c = true.
Proof.
  destruct a as [x | | |], b as [y | | |], c as [z | | |]; simpl;
    try discriminate; try reflexivity.
  intros Hxy Hyz. apply Qle_bool_iff in Hxy, Hyz. apply Qle_bool_iff. lra.
Qed.

(** Rounding keeps a rational between two rationals that are binary64
    values. *)
Lemma round64_between (a b q : Q) :
  round64 a = Fin a -> round64 b = Fin b -> a <= q -> q <= b ->
  exists r : Q, round64 q = Fin r /\ a <= r /\ r <= b.
Proof.
  intros Ha Hb Haq Hqb.
  apply leb_fin_between.
  - rewrite <- Ha. now apply round64_mono.
  - rewrite <- Hb. now apply round64_mono.
Qed.

Lemma div_round (x y : Q) :
  ~ y == 0 -> div (Fin x) (Fin y) = round64 (x / y).
Proof.
  intros Hy. cbn [div]. destruct (Qeq_bool y 0) eqn:E; [| reflexivity].
  apply Qeq_bool_iff in E. contradiction.
Qed.

(** A quotient by zero is [Infinity] or [NaN] for a numerator that is not
    negative. *)
Lemma div_zero (x y : Q) :
  y == 0 -> 0 <= x ->
  div (Fin x) (Fin y) = PosInf \/ div (Fin x) (Fin y) = NaN.
Proof.
  intros Hy Hx. cbn [div].
  apply Qeq_bool_iff in Hy. rewrite Hy.
  destruct (Qpos_bool x); [now left |].
  destruct (Qneg_bool x) eqn:E; [| now right].
  apply Qlt_bool_iff in E. lra.
Qed.

Lemma criteria_iff (first second : Bottom) :
  criteria first second = true <->
  leb (priceDiff first second) (literal 0.20) = true /\
  leb (Fin 21) (timeDiff first second) = true /\
  leb (timeDiff first second) (Fin 42) = true.
Proof.
  unfold criteria, geb.
  change (tolerance CONFIG) with 0.20.
  change (min (timeBetweenBottoms CONFIG)) with 21.
  change (max (timeBetweenBottoms CONFIG)) with 42.
  rewrite !andb_true_iff. tauto.
Qed.


Lemma analyzeBottoms_two (priceData : PriceData) (first second : Bottom) :
  analyzeBottoms priceData [first; second] =
  if criteria first second
  then Some {| firstBottom := first;
               secondBottom := second;
               neckline := calculateNeckline priceData first second;
               depth := priceDiff first second;
               timespan := timeDiff first second |}
  else None.
Proof. reflexivity. Qed.



Example findBottoms_double_bottom_sample :
  findBottoms double_bottom_sample =
  [bottom_at double_bottom_sample 10; bottom_at double_bottom_sample 40].
Proof. vm_compute. reflexivity. Qed.

(** The claim as the specification states it fails on the sample, whose two
    bottoms are priced 100 and 108 and lie 30 days apart: the validator
    accepts with the depth 0.08, and no accepted pattern has a depth within
    0.001 of 0.0741. *)
Lemma depth_100_108_not_0741 :
  (exists p : Pattern,
     analyzeBottoms double_bottom_sample
       [bottom_at double_bottom_sample 10;
        bottom_at double_bottom_sample 40] = Some p /\
     depth p = literal 0.08) /\
  ~ (exists (p : Pattern) (d : Q),
       analyzeBottoms double_bottom_sample
         [bottom_at double_bottom_sample 10;
          bottom_at double_bottom_sample 40] = Some p /\
       depth p = Fin d /\ Qabs (d - 0.0741) <= 0.001).
Proof.
  split.
  - eexists. split; [vm_compute; reflexivity |]. vm_compute. reflexivity.
  - intros [p [d [Hp [Hd Hclose]]]].
    vm_compute in Hp. injection Hp as <-.
    vm_compute in Hd. injection Hd as <-.
    vm_compute in Hclose. now apply Hclose.
Qed.

(** C6 (amended). Two bottoms priced 100 and 108, in that order, exactly
    30 days apart are accepted under the tolerance 0.20 and the spacing
    window of 21 to 42 days; the pattern holds the two bottoms, its depth
    is the number 0.08 (8 / 100: the difference over the first price) and
    its timespan is 30 days. *)
Theorem analyzeBottoms_100_108 (priceData : PriceData) (t : Q) (i j : nat) :
  exists p : Pattern,
    analyzeBottoms priceData
      [ {| timestamp := t; price := 100; index := i |};
        {| timestamp := t + 30 * (1000 * 60 * 60 * 24);
           price := 108; index := j |} ] = Some p /\
    firstBottom p = {| timestamp := t; price := 100; index := i |} /\
    secondBottom p = {| timestamp := t + 30 * (1000 * 60 * 60 * 24);
                        price := 108; index := j |} /\
    depth p = literal 0.08 /\
    Qabs (value (depth p) - 0.08) <= 1 # 1000000000000000 /\
    same (timespan p) (Fin 30).
Proof.
  set (first := {| timestamp := t; price := 100; index := i |}).
  set (second := {| timestamp := t + 30 * (1000 * 60 * 60 * 24);
                    price := 108; index := j |}).
  assert (Hdepth : priceDiff first second = literal 0.08)
    by (vm_compute; reflexivity).
  assert (Hspan : timeDiff first second = Fin 30).
  { unfold timeDiff.
    change (sub (Fin (timestamp second)) (Fin (timestamp first)))
      with (round64 (timestamp second - timestamp first)).
    rewrite (round64_proper _ (30 * (1000 * 60 * 60 * 24)))
      by (simpl; ring).
    vm_compute. reflexivity. }
  assert (Hc : criteria first second = true).
  { apply criteria_iff. rewrite Hdepth, Hspan.
    repeat split; vm_compute; reflexivity. }
  exists {| firstBottom := first;
            secondBottom := second;
            neckline := calculateNeckline priceData first second;
            depth := priceDiff first second;
            timespan := timeDiff first second |}.
  split; [now rewrite analyzeBottoms_two, Hc |].
  cbn [firstBottom secondBottom depth timespan].
  rewrite Hdepth, Hspan.
  repeat split; vm_compute; congruence.
Qed.

(** ** The confidence estimator *)

Lemma inject_nat_pos (n : nat) : (0 < n)%nat -> 0 < inject_Z (Z.of_nat n).
Proof.
  intros Hn. change 0 with (inject_Z 0). rewrite <- Zlt_Qlt. lia.
Qed.

Lemma inject_nat_nonzero (n : nat) :
  (0 < n)%nat -> ~ inject_Z (Z.of_nat n) == 0.
Proof.
  intros Hn Hz. pose proof (inject_nat_pos n Hn) as Hpos.
  rewrite Hz in Hpos. now apply (Qlt_irrefl 0).
Qed.

Lemma ratio_bounds (a b : nat) :
  (a <= b)%nat -> (0 < b)%nat ->
  0 <= inject_Z (Z.of_nat a) / inject_Z (Z.of_nat b) <= 1.
Proof.
  intros Hab Hb. pose proof (inject_nat_pos b Hb) as Hpos. split.
  - apply Qle_shift_div_l; [exact Hpos |]. rewrite Qmult_0_l.
    change 0 with (inject_Z 0). rewrite <- Zle_Qle. lia.
  - apply Qle_shift_div_r; [exact Hpos |]. rewrite Qmult_1_l.
    rewrite <- Zle_Qle. lia.
Qed.

(** Rounding keeps a ratio between 0 and 1 there. *)
Lemma round64_unit (q : Q) :
  0 <= q -> q <= 1 -> exists r : Q, round64 q = Fin r /\ 0 <= r /\ r <= 1.
Proof.
  intros Hlo Hhi. now apply round64_between.
Qed.

Lemma predict_no_match (this : MLPredictor) (p : Pattern) :
  filter (similar p) (history this) = [] -> predict this p = Fin 0.5.
Proof.
  intros Hnil. unfold predict. now rewrite Hnil.
Qed.

Lemma predict_match (this : MLPredictor) (p : Pattern) :
  filter (similar p) (history this) <> [] ->
  predict this p =
  round64
    (inject_Z (Z.of_nat (List.length
                 (filter is_success (filter (similar p) (history this)))))
     / inject_Z (Z.of_nat (List.length
                   (filter (similar p) (history this))))).
Proof.
  intros Hne. unfold predict. cbv zeta.
  destruct (filter (similar p) (history this)) as [| h l] eqn:E;
    [congruence |].
  change (List.length (h :: l) =? 0) with false. cbv iota.
  unfold of_nat. apply div_round.
  apply inject_nat_nonzero. simpl. lia.
Qed.

Lemma predict_range (this : MLPredictor) (p : Pattern) :
  exists q : Q, predict this p = Fin q /\ 0 <= q /\ q <= 1.
Proof.
  destruct (filter (similar p) (history this)) as [| h l] eqn:E.
  - exists 0.5. rewrite (predict_no_match this p E).
    split; [reflexivity | split; discriminate].
  - assert (Hne : filter (similar p) (history this) <> [])
      by (rewrite E; discriminate).
    rewrite (predict_match this p Hne), E.
    destruct (ratio_bounds
                (List.length (filter is_success (h :: l)))
                (List.length (h :: l))) as [Hlo Hhi];
      [apply filter_length_le | simpl; lia |].
    now apply round64_unit.
Qed.

Lemma literal_tenth : literal 0.1 = Fin (double 0.1).
Proof. vm_compute. reflexivity. Qed.

(** The match test on two finite depths: the rounded difference is below
    the number 0.1. *)
Lemma similar_iff (p : Pattern) (h : HistoryEntry) (dh dp : Q) :
  depth (pattern h) = Fin dh -> depth p = Fin dp ->
  (similar p h = true <->
   exists d : Q, round64 (dh - dp) = Fin d /\ Qabs d < double 0.1).
Proof.
  intros Hh Hp. unfold similar. rewrite Hh, Hp, literal_tenth.
  change (sub (Fin dh) (Fin dp)) with (round64 (dh - dp)).
  destruct (round64 (dh - dp)) as [d | | |]; cbn [abs ltb].
  - rewrite Qlt_bool_iff. split.
    + intros Hlt. exists d. split; [reflexivity | exact Hlt].
    + intros [d' [[= <-] Hlt]]. exact Hlt.
  - split; [discriminate | intros [d [Hd _]]; discriminate].
  - split; [discriminate | intros [d [Hd _]]; discriminate].
  - split; [discriminate | intros [d [Hd _]]; discriminate].
Qed.

(** C3. [predict] returns the successes among the matching records over the
    number of matching records, as the rounded quotient; a record is a
    success exactly when its outcome is the string [success], and it
    matches when the difference of the two depths, as the program computes
    it, is below 0.1 in absolute value; with no match, so with no record
    at all, it returns exactly 0.5; the result is a number between 0 and
    1.  After learning one success of depth 0.05, a query of depth 0.06
    gives 1 and a query of depth 0.30 gives 0.5; after a failure, or a
    success and a failure, the same query gives 0 and 1/2; the depths
    0.108 and 0.008 do not match, their difference rounding to 0.1. *)
Theorem predict_spec :
  (forall (this : MLPredictor) (p : Pattern),
     (filter (similar p) (history this) = [] -> predict this p = Fin 0.5) /\
     (filter (similar p) (history this) <> [] ->
      predict this p =
      round64
        (inject_Z (Z.of_nat (List.length
                     (filter is_success
                             (filter (similar p) (history this)))))
         / inject_Z (Z.of_nat (List.length
                       (filter (similar p) (history this)))))) /\
     (exists q : Q, predict this p = Fin q /\ 0 <= q <= 1)) /\
  (forall h : HistoryEntry,
     is_success h = true <-> outcome h = "success"%string) /\
  (forall (p : Pattern) (h : HistoryEntry) (dh dp : Q),
     depth (pattern h) = Fin dh -> depth p = Fin dp ->
     (similar p h = true <->
      exists d : Q, round64 (dh - dp) = Fin d /\ Qabs d < double 0.1)) /\
  (forall p : Pattern, predict ml_new p = Fin 0.5) /\
  predict (learn ml_new (pattern_of_depth 0.05) "success")
          (pattern_of_depth 0.06) = Fin 1 /\
  predict (learn ml_new (pattern_of_depth 0.05) "success")
          (pattern_of_depth 0.30) = Fin 0.5 /\
  predict (learn ml_new (pattern_of_depth 0.05) "failure")
          (pattern_of_depth 0.06) = Fin 0 /\
  predict (learn (learn ml_new (pattern_of_depth 0.05) "success")
                 (pattern_of_depth 0.06) "failure")
          (pattern_of_depth 0.055) = Fin (1 # 2) /\
  predict (learn ml_new (pattern_of_depth 0.108) "success")
          (pattern_of_depth 0.008) = Fin 0.5.
Proof.
  split; [| split; [| split; [| split]]].
  - intros this p. split; [apply predict_no_match | split].
    + apply predict_match.
    + destruct (predict_range this p) as [q [Hq [Hlo Hhi]]]. now exists q.
  - intros h. unfold is_success. apply String.eqb_eq.
  - apply similar_iff.
  - reflexivity.
  - repeat split; vm_compute; reflexivity.
Qed.

Lemma predict_spec_witness :
  predict (learn ml_new (pattern_of_depth 0.05) "success")
          (pattern_of_depth 0.30) = Fin 0.5.
Proof.
  apply (proj1 (proj1 predict_spec
                  (learn ml_new (pattern_of_depth 0.05) "success")
                  (pattern_of_depth 0.30))).
  vm_compute. reflexivity.
Defined.

(** ** The alert classifier *)

(** C5. The three conditions are tried in order and the first that holds
    decides.  The alert is yellow exactly when the current price is below
    the number the program computes as 1.05 times the second bottom's
    price, whatever the later conditions say; when it is not, the alert is
    orange if the price is below 0.95 times the neckline, and red if it is
    not and the price is at least 0.95 times the neckline.  With the
    neckline at 100 and the second bottom at 90, the current prices 94 and
    93 both give yellow, although at both the orange condition holds as
    well; 94.5 gives orange and 96 red.  The products are rounded: for a
    second bottom at 19 the price 19.95 is not below 19 times 1.05 and,
    under a neckline of 25, gives orange; for a second bottom at 3 the
    price 3.15 is below 3 times 1.05 and gives yellow; under a neckline of
    1 the price 0.95 is not below 1 times 0.95 and gives red. *)
Theorem alertType_priority :
  (forall (currentPrice : Q) (p : Pattern),
     (alertType currentPrice p = Some ALERTA_AMARELO <->
      ltb (Fin currentPrice)
          (mul (Fin (price (secondBottom p))) (literal 1.05)) = true) /\
     (ltb (Fin currentPrice)
          (mul (Fin (price (secondBottom p))) (literal 1.05)) = false ->
      ltb (Fin currentPrice) (mul (neckline p) (literal 0.95)) = true ->
      alertType currentPrice p = Some ALERTA_LARANJA) /\
     (ltb (Fin currentPrice)
          (mul (Fin (price (secondBottom p))) (literal 1.05)) = false ->
      ltb (Fin currentPrice) (mul (neckline p) (literal 0.95)) = false ->
      geb (Fin currentPrice) (mul (neckline p) (literal 0.95)) = true ->
      alertType currentPrice p = Some ALERTA_VERMELHO)) /\
  alertType 94 alert_sample = Some ALERTA_AMARELO /\
  alertType 93 alert_sample = Some ALERTA_AMARELO /\
  ltb (Fin 94) (mul (neckline alert_sample) (literal 0.95)) = true /\
  ltb (Fin 93) (mul (neckline alert_sample) (literal 0.95)) = true /\
  alertType 94.5 alert_sample = Some ALERTA_LARANJA /\
  alertType 96 alert_sample = Some ALERTA_VERMELHO /\
  alertType (double 19.95) (pattern_with 19 25) = Some ALERTA_LARANJA /\
  alertType (double 3.15) (pattern_with 3 25) = Some ALERTA_AMARELO /\
  alertType (double 0.95) (pattern_with 0.5 1) = Some ALERTA_VERMELHO.
Proof.
  split; [| repeat split; vm_compute; reflexivity].
  intros currentPrice p. unfold alertType.
  destruct (ltb (Fin currentPrice)
                (mul (Fin (price (secondBottom p))) (literal 1.05))) eqn:Ey.
  - split; [tauto | split; discriminate].
  - split; [split; [| discriminate] | split].
    + destruct (ltb (Fin currentPrice) (mul (neckline p) (literal 0.95)));
        [intros H; discriminate H |].
      destruct (geb (Fin currentPrice) (mul (neckline p) (literal 0.95)));
        intros H; discriminate H.
    + intros _ Ho. rewrite Ho. reflexivity.
    + intros _ Ho Hr. rewrite Ho, Hr. reflexivity.
Qed.

Lemma alertType_priority_witness :
  alertType 93 alert_sample = Some ALERTA_AMARELO.
Proof.
  apply (proj1 (proj1 alertType_priority 93 alert_sample)).
  vm_compute. reflexivity.
Defined.

(** Below a number or at least that number: one of the two comparisons
    holds unless the number is [NaN]. *)
Lemma ltb_or_geb (x : Q) (b : number) :
  b <> NaN -> ltb (Fin x) b = true \/ geb (Fin x) b = true.
Proof.
  intros Hb. destruct b as [y | | |]; simpl; try congruence; auto.
  unfold geb. simpl. unfold Qlt_bool.
  destruct (Qle_bool y x); auto.
Qed.

Lemma signed_inf_not_nan (s : number) (c : Q) (z : bool) :
  s <> NaN -> neg s <> NaN -> ~ c == 0 -> signed_inf s c z <> NaN.
Proof.
  intros Hs Hn Hc. unfold signed_inf.
  destruct (Qneg_bool c) eqn:En; [exact Hn |].
  destruct (Qpos_bool c) eqn:Ep; [exact Hs |].
  apply Qlt_bool_false_iff in En, Ep. exfalso. apply Hc. lra.
Qed.

Lemma mul_fin_not_nan (a : number) (c : Q) :
  a <> NaN -> ~ c == 0 -> mul a (Fin c) <> NaN.
Proof.
  intros Ha Hc. destruct a as [x | | |]; cbn [mul]; try congruence.
  - apply round64_not_nan.
  - apply signed_inf_not_nan; simpl; congruence.
  - apply signed_inf_not_nan; simpl; congruence.
Qed.

Lemma literal_095 : literal 0.95 = Fin (double 0.95).
Proof. vm_compute. reflexivity. Qed.

Lemma mul_095_not_nan (a : number) : a <> NaN -> mul a (literal 0.95) <> NaN.
Proof.
  intros Ha. rewrite literal_095.
  apply mul_fin_not_nan; [exact Ha | vm_compute; discriminate].
Qed.

(** The chain of conditions always sets an alert type when the neckline is
    a number. *)
Lemma alertType_not_none (currentPrice : Q) (p : Pattern) :
  neckline p <> NaN -> alertType currentPrice p <> None.
Proof.
  intros Hn. pose proof (mul_095_not_nan _ Hn) as Hm.
  destruct (ltb_or_geb currentPrice _ Hm) as [Ho | Hr];
    unfold alertType.
  - rewrite Ho. destruct (ltb _ (mul (Fin _) _)); discriminate.
  - rewrite Hr. destruct (ltb _ (mul (Fin _) _)); [discriminate |].
    destruct (ltb _ _); discriminate.
Qed.

(** ** Patterns the analysis produces *)

Lemma last_two {A : Type} (l : list A) :
  (2 <= List.length l)%nat -> exists earlier x y, l = earlier ++ [x; y].
Proof.
  intros Hlen.
  pose proof (firstn_skipn (List.length l - 2) l) as Hsplit.
  pose proof (length_skipn (List.length l - 2) l) as Hskip.
  destruct (skipn (List.length l - 2) l) as [| x [| y [| z r]]];
    simpl in Hskip; try lia.
  exists (firstn (List.length l - 2) l), x, y. now symmetry.
Qed.

Lemma sorted_last_two (earlier : list Bottom) (f s : Bottom) :
  StronglySorted Nat.lt (map index (earlier ++ [f; s])) ->
  (index f < index s)%nat.
Proof.
  induction earlier as [| b earlier IH]; simpl; intros Hs.
  - inversion Hs as [| ? ? _ Hall]; subst.
    inversion Hall; subst. assumption.
  - inversion Hs; subst. now apply IH.
Qed.

Lemma findBottoms_sorted (priceData : PriceData) :
  StronglySorted Nat.lt (map index (findBottoms priceData)).
Proof.
  rewrite findBottoms_index. apply filter_sorted, seq_sorted.
Qed.

(** An accepted pattern is built from two bottoms of the detector, the
    first at a smaller index, that pass the acceptance test. *)
Lemma analyzePriceData_inv (priceData : PriceData) (p : Pattern) :
  analyzePriceData priceData = Some p ->
  exists f s : Bottom,
    In f (findBottoms priceData) /\ In s (findBottoms priceData) /\
    (index f < index s)%nat /\ criteria f s = true /\
    p = {| firstBottom := f;
           secondBottom := s;
           neckline := calculateNeckline priceData f s;
           depth := priceDiff f s;
           timespan := timeDiff f s |}.
Proof.
  unfold analyzePriceData, analyzeBottoms.
  destruct (2 <=? List.length (findBottoms priceData)) eqn:Hlen;
    [| discriminate].
  apply Nat.leb_le in Hlen.
  destruct (last_two _ Hlen) as [earlier [f [s Hl]]].
  pose proof (findBottoms_sorted priceData) as Hsorted.
  rewrite Hl in *. rewrite slice_last_app.
  destruct (criteria f s) eqn:Hc; [| discriminate].
  intros [= <-]. exists f, s.
  repeat split; trivial.
  - apply in_or_app. right. now left.
  - apply in_or_app. right. right. now left.
  - now apply sorted_last_two with earlier.
Qed.

Lemma analyzePriceData_neckline (priceData : PriceData) (p : Pattern) :
  analyzePriceData priceData = Some p -> exists m : Q, neckline p = Fin m.
Proof.
  intros Hp. apply analyzePriceData_inv in Hp.
  destruct Hp as [f [s [Hf [_ [Hlt [_ ->]]]]]].
  destruct (findBottoms_In_inv priceData f Hf) as [_ [Hlen _]].
  destruct (calculateNeckline_max priceData f s Hlt) as [m [Hm _]];
    [lia |].
  now exists m.
Qed.

(** C7. For every pattern whose neckline is a number and every current
    price, one of the three conditions (yellow: below 1.05 times the second
    bottom's price; orange: below 0.95 times the neckline; red: at least
    0.95 times the neckline) holds, so an alert type is always set; the
    patterns the analysis produces have such a neckline. *)
Theorem alertType_exhaustive :
  (forall (currentPrice : Q) (p : Pattern),
     neckline p <> NaN ->
     (ltb (Fin currentPrice) (mul (Fin (price (secondBottom p))) (literal 1.05))
        = true \/
      ltb (Fin currentPrice) (mul (neckline p) (literal 0.95)) = true \/
      geb (Fin currentPrice) (mul (neckline p) (literal 0.95)) = true) /\
     alertType currentPrice p <> None) /\
  (forall (priceData : PriceData) (currentPrice : Q) (p : Pattern),
     analyzePriceData priceData = Some p ->
     alertType currentPrice p <> None).
Proof.
  assert (Hmain : forall (currentPrice : Q) (p : Pattern),
             neckline p <> NaN ->
             (ltb (Fin currentPrice)
                  (mul (Fin (price (secondBottom p))) (literal 1.05)) = true \/
              ltb (Fin currentPrice) (mul (neckline p) (literal 0.95)) = true \/
              geb (Fin currentPrice) (mul (neckline p) (literal 0.95)) = true) /\
             alertType currentPrice p <> None).
  { intros currentPrice p Hn.
    assert (Hm : mul (neckline p) (literal 0.95) <> NaN)
      by (now apply mul_095_not_nan).
    destruct (ltb_or_geb currentPrice _ Hm) as [Ho | Hr].
    - split; [auto |]. unfold alertType. rewrite Ho.
      destruct (ltb _ (mul (Fin _) _)); discriminate.
    - split; [auto |]. unfold alertType. rewrite Hr.
      destruct (ltb _ (mul (Fin _) _)); [discriminate |].
      destruct (ltb _ _); discriminate. }
  split; [exact Hmain |].
  intros priceData currentPrice p Hp.
  destruct (analyzePriceData_neckline priceData p Hp) as [m Hm].
  apply Hmain. rewrite Hm. discriminate.
Qed.

Lemma alertType_exhaustive_witness :
  alertType 120 alert_sample <> None /\
  (exists p : Pattern,
     analyzePriceData double_bottom_sample = Some p /\
     alertType 120 p <> None).
Proof.
  split.
  - apply (proj1 alertType_exhaustive 120 alert_sample). discriminate.
  - eexists. split; [vm_compute; reflexivity |].
    apply (proj2 alertType_exhaustive double_bottom_sample 120).
    vm_compute. reflexivity.
Defined.

(** ** Determinism of the cycle *)

Section ReadsOnly.

Lemma reads_only_ret {A : Type} (a : A) : reads_only (ret a).
Proof.
  intros w1 w2 Hml. simpl. repeat split. exists [].
  now rewrite !app_nil_r.
Qed.

Lemma reads_only_bind {A B : Type} (m : M A) (k : A -> M B) :
  reads_only m -> (forall a, reads_only (k a)) -> reads_only (bind m k).
Proof.
  intros Hm Hk w1 w2 Hml. unfold bind.
  destruct (Hm w1 w2 Hml) as [Hres [Hml1 [Hml2 [out [Hout1 Hout2]]]]].
  destruct (m w1) as [r1 v1], (m w2) as [r2 v2]. simpl in *. subst r2.
  destruct r1 as [a | e].
  - assert (Hv : ml v1 = ml v2) by congruence.
    destruct (Hk a v1 v2 Hv) as [Hres' [Hml1' [Hml2' [out' [Ho1 Ho2]]]]].
    repeat split; try congruence.
    exists (out ++ out'). rewrite Ho1, Ho2, Hout1, Hout2.
    now rewrite !app_assoc.
  - simpl. repeat split; trivial. now exists out.
Qed.

Lemma reads_only_try_catch {A : Type} (body : M A) (handler : Error -> M A) :
  reads_only body -> (forall e, reads_only (handler e)) ->
  reads_only (try_catch body handler).
Proof.
  intros Hm Hk w1 w2 Hml. unfold try_catch.
  destruct (Hm w1 w2 Hml) as [Hres [Hml1 [Hml2 [out [Hout1 Hout2]]]]].
  destruct (body w1) as [r1 v1], (body w2) as [r2 v2]. simpl in *. subst r2.
  destruct r1 as [a | e].
  - simpl. repeat split; trivial. now exists out.
  - assert (Hv : ml v1 = ml v2) by congruence.
    destruct (Hk e v1 v2 Hv) as [Hres' [Hml1' [Hml2' [out' [Ho1 Ho2]]]]].
    repeat split; try congruence.
    exists (out ++ out'). rewrite Ho1, Ho2, Hout1, Hout2.
    now rewrite !app_assoc.
Qed.

Lemma reads_only_emit (ev : Event) : reads_only (emit ev).
Proof.
  intros w1 w2 Hml. simpl. repeat split. now exists [ev].
Qed.

Lemma reads_only_await {A : Type} (request : Event) (answer : Result A) :
  reads_only (await request answer).
Proof.
  intros w1 w2 Hml. simpl. repeat split. now exists [request].
Qed.

Lemma reads_only_ml_predict (p : Pattern) : reads_only (ml_predict p).
Proof.
  intros w1 w2 Hml. unfold ml_predict. simpl. rewrite Hml.
  repeat split. exists []. now rewrite !app_nil_r.
Qed.

Lemma reads_only_for_of {A : Type} (xs : list A) (body : A -> M unit) :
  (forall x, reads_only (body x)) -> reads_only (for_of xs body).
Proof.
  intros Hbody. induction xs as [| x xs IH]; simpl.
  - apply reads_only_ret.
  - apply reads_only_bind; [apply Hbody | intros _; exact IH].
Qed.

(** Learning is the one operation that is not read-only: it appends a
    record. *)
Lemma ml_learn_writes (p : Pattern) (o : string) : ~ reads_only (ml_learn p o).
Proof.
  intros H.
  destruct (H {| ml := ml_new; events := [] |}
              {| ml := ml_new; events := [] |} eq_refl) as [_ [Hml _]].
  discriminate Hml.
Qed.

Variable markets : Result (list Crypto).
Variable market_chart : string -> Result PriceData.

Lemma reads_only_analyzeCrypto (crypto : Crypto) :
  reads_only (analyzeCrypto market_chart crypto).
Proof.
  apply reads_only_bind; [apply reads_only_await |].
  intros priceData. apply reads_only_ret.
Qed.

Lemma reads_only_detect_one (crypto : Crypto) :
  reads_only (detect_one market_chart crypto).
Proof.
  apply reads_only_bind; [apply reads_only_analyzeCrypto |].
  intros [p |]; [| apply reads_only_ret].
  apply reads_only_bind; [apply reads_only_ml_predict |].
  intros confidence. apply reads_only_bind; [| intros _; apply reads_only_ret].
  apply reads_only_bind; [apply reads_only_emit |].
  intros _. apply reads_only_ret.
Qed.

Lemma reads_only_detectDoubleBottom :
  reads_only (detectDoubleBottom markets market_chart).
Proof.
  apply reads_only_try_catch.
  - apply reads_only_bind.
    + apply reads_only_bind; [apply reads_only_await |].
      intros data. apply reads_only_ret.
    + intros cryptos. apply reads_only_for_of, reads_only_detect_one.
  - intros e. apply reads_only_emit.
Qed.

End ReadsOnly.

Lemma detect_one_run (market_chart : string -> Result PriceData)
    (crypto : Crypto) (w : World) :
  detect_one market_chart crypto w =
  (match market_chart (id crypto) with
   | Ok _ => Ok tt
   | Throw e => Throw e
   end,
   {| ml := ml w;
      events := events w ++ detect_one_output market_chart (ml w) crypto |}).
Proof.
  unfold detect_one, detect_one_output, analyzeCrypto, getPriceHistory,
    await, bind. simpl.
  destruct (market_chart (id crypto)) as [priceData | e]; simpl.
  - destruct (analyzePriceData priceData) as [p |]; simpl.
    + unfold ml_predict, sendAlert, emit, bind, ret. simpl.
      now rewrite <- app_assoc.
    + reflexivity.
  - reflexivity.
Qed.

(** C9. Processing an asset is deterministic in the price data, the asset
    and the learning records: from two worlds with the same predictor, the
    analysis returns the same pattern (or none), the run ends the same way
    and appends the same events (the request and, on a double bottom, the
    alert with its pattern, alert type and confidence), and both runs leave
    the predictor as it was. *)
Theorem detect_one_deterministic
    (market_chart : string -> Result PriceData) (crypto : Crypto)
    (w1 w2 : World) :
  ml w1 = ml w2 ->
  fst (analyzeCrypto market_chart crypto w1) =
  fst (analyzeCrypto market_chart crypto w2) /\
  fst (detect_one market_chart crypto w1) =
  fst (detect_one market_chart crypto w2) /\
  events (snd (detect_one market_chart crypto w1)) =
  events w1 ++ detect_one_output market_chart (ml w1) crypto /\
  events (snd (detect_one market_chart crypto w2)) =
  events w2 ++ detect_one_output market_chart (ml w1) crypto /\
  ml (snd (detect_one market_chart crypto w1)) = ml w1 /\
  ml (snd (detect_one market_chart crypto w2)) = ml w2.
Proof.
  intros Hml.
  destruct (reads_only_analyzeCrypto market_chart crypto w1 w2 Hml)
    as [Hpattern _].
  split; [exact Hpattern |].
  rewrite !detect_one_run. simpl. rewrite Hml. repeat split.
Qed.

Lemma detect_one_deterministic_witness :
  fst (analyzeCrypto sample_chart (sample_crypto "btc") (sample_world [])) =
  fst (analyzeCrypto sample_chart (sample_crypto "btc")
         (sample_world [FetchMarkets])) /\
  fst (detect_one sample_chart (sample_crypto "btc") (sample_world [])) =
  fst (detect_one sample_chart (sample_crypto "btc")
         (sample_world [FetchMarkets])) /\
  events (snd (detect_one sample_chart (sample_crypto "btc")
                 (sample_world []))) =
  events (sample_world []) ++
  detect_one_output sample_chart (ml (sample_world []))
    (sample_crypto "btc") /\
  events (snd (detect_one sample_chart (sample_crypto "btc")
                 (sample_world [FetchMarkets]))) =
  events (sample_world [FetchMarkets]) ++
  detect_one_output sample_chart (ml (sample_world []))
    (sample_crypto "btc") /\
  ml (snd (detect_one sample_chart (sample_crypto "btc") (sample_world []))) =
  ml (sample_world []) /\
  ml (snd (detect_one sample_chart (sample_crypto "btc")
             (sample_world [FetchMarkets]))) =
  ml (sample_world [FetchMarkets]).
Proof.
  apply (detect_one_deterministic sample_chart (sample_crypto "btc")
           (sample_world []) (sample_world [FetchMarkets])).
  reflexivity.
Defined.

(** On the sample the run raises the red alert: the current price 120 is
    above 0.95 times the neckline 122 and above 1.05 times 108. *)
Example detect_one_sample_alert :
  exists alert : Alert,
    detect_one_output sample_chart (ml (sample_world []))
      (sample_crypto "btc") =
    [FetchMarketChart "btc"; ConsoleLog alert] /\
    alert_type alert = Some ALERTA_VERMELHO /\
    neckline (alert_pattern alert) = Fin 122 /\
    same (alert_confidence alert) (Fin 1).
Proof.
  eexists. split; [vm_compute; reflexivity |].
  vm_compute. repeat split.
Qed.

(** ** Errors in the cycle *)

Lemma for_of_abort {A : Type} (body : A -> M unit)
    (before : list A) (c : A) (after : list A) (e : Error) (w w1 w2 : World) :
  for_of before body w = (Ok tt, w1) ->
  body c w1 = (Throw e, w2) ->
  for_of (before ++ c :: after) body w = (Throw e, w2).
Proof.
  revert w. induction before as [| x before IH]; intros w Hbefore Hc.
  - simpl in *. injection Hbefore as <-. unfold bind. now rewrite Hc.
  - simpl in *. unfold bind in *.
    destruct (body x w) as [[[] | e'] w']; [| discriminate].
    now apply IH.
Qed.

(** The cycle never propagates an error to its caller. *)
Lemma detectDoubleBottom_returns (markets : Result (list Crypto))
    (market_chart : string -> Result PriceData) (w : World) :
  fst (detectDoubleBottom markets market_chart w) = Ok tt.
Proof.
  unfold detectDoubleBottom, try_catch.
  destruct (bind _ _ w) as [[[] | e] w']; reflexivity.
Qed.

(** C10. When processing one asset of a cycle throws, the assets before it
    having been processed, the cycle stops there: the world is the one the
    failing asset left (its request is the last before the error), plus the
    error written to the console; no asset after it is fetched, analysed or
    alerted on; and the cycle returns normally. *)
Theorem detectDoubleBottom_aborts
    (markets : Result (list Crypto))
    (market_chart : string -> Result PriceData)
    (before : list Crypto) (c : Crypto) (after : list Crypto)
    (e : Error) (w w0 w1 w2 : World) :
  getEligibleCryptos markets w = (Ok (before ++ c :: after), w0) ->
  for_of before (detect_one market_chart) w0 = (Ok tt, w1) ->
  detect_one market_chart c w1 = (Throw e, w2) ->
  detectDoubleBottom markets market_chart w =
  (Ok tt, {| ml := ml w2; events := events w2 ++ [ConsoleError e] |}) /\
  events w2 = events w1 ++ [FetchMarketChart (id c)].
Proof.
  intros Hlist Hbefore Hc. split.
  - unfold detectDoubleBottom, try_catch, bind at 1. rewrite Hlist.
    now rewrite (for_of_abort _ before c after e w0 w1 w2 Hbefore Hc).
  - rewrite detect_one_run in Hc. unfold detect_one_output in Hc.
    destruct (market_chart (id c)); [discriminate |].
    injection Hc as _ <-. reflexivity.
Qed.

Lemma detectDoubleBottom_aborts_witness :
  detectDoubleBottom sample_markets sample_chart (sample_world []) =
  (Ok tt,
   {| ml := ml (sample_world []);
      events :=
        (FetchMarkets ::
         detect_one_output sample_chart (ml (sample_world []))
           (sample_crypto "btc") ++
         [FetchMarketChart "fail"]) ++
        [ConsoleError "fetch failed"%string] |}) /\
  FetchMarkets ::
  detect_one_output sample_chart (ml (sample_world []))
    (sample_crypto "btc") ++ [FetchMarketChart "fail"] =
  (FetchMarkets ::
   detect_one_output sample_chart (ml (sample_world []))
     (sample_crypto "btc")) ++ [FetchMarketChart "fail"].
Proof.
  apply (detectDoubleBottom_aborts sample_markets sample_chart
           [sample_crypto "btc"] (sample_crypto "fail") [sample_crypto "eth"]
           "fetch failed"%string
           (sample_world [])
           (sample_world [FetchMarkets])
           (sample_world
              (FetchMarkets ::
               detect_one_output sample_chart (ml (sample_world []))
                 (sample_crypto "btc")))
           {| ml := ml (sample_world []);
              events :=
                FetchMarkets ::
                detect_one_output sample_chart (ml (sample_world []))
                  (sample_crypto "btc") ++ [FetchMarketChart "fail"] |}).
  - vm_compute. reflexivity.
  - vm_compute. reflexivity.
  - vm_compute. reflexivity.
Defined.

(** * Further properties *)

(** ** Learning *)

Lemma history_learn (this : MLPredictor) (p : Pattern) (o : string) :
  history (learn this p o) =
  history this ++ [ {| pattern := p; outcome := o |} ].
Proof. reflexivity. Qed.

Lemma inject_nat_succ (n : nat) :
  inject_Z (Z.of_nat (S n)) == inject_Z (Z.of_nat n) + 1.
Proof.
  replace (Z.of_nat (S n)) with (Z.of_nat n + 1)%Z by lia.
  now rewrite inject_Z_plus.
Qed.

Lemma inject_nat_nonneg (n : nat) : 0 <= inject_Z (Z.of_nat n).
Proof.
  change 0 with (inject_Z 0). rewrite <- Zle_Qle. lia.
Qed.

Lemma inject_nat_le (a b : nat) :
  (a <= b)%nat -> inject_Z (Z.of_nat a) <= inject_Z (Z.of_nat b).
Proof.
  intros Hab. rewrite <- Zle_Qle. lia.
Qed.

(** X1. [learn] appends exactly one record after the records already
    there and recomputes [successRate] as the successes over the records,
    rounded, times 100, rounded: a number between 0 and 100; on an empty
    history [updateSuccessRate] alone gives [NaN] (0 / 0), whatever the
    rate was. *)
Theorem learn_spec (this : MLPredictor) (p : Pattern) (o : string) :
  history (learn this p o) =
  history this ++ [ {| pattern := p; outcome := o |} ] /\
  (exists q : Q,
     round64
       (inject_Z (Z.of_nat (List.length
                    (filter is_success (history (learn this p o)))))
        / inject_Z (Z.of_nat (List.length (history (learn this p o)))))
     = Fin q /\
     0 <= q /\ q <= 1 /\
     successRate (learn this p o) = round64 (q * 100)) /\
  (exists r : Q,
     successRate (learn this p o) = Fin r /\ 0 <= r /\ r <= 100) /\
  successRate
    (updateSuccessRate {| history := []; successRate := successRate this |})
  = NaN.
Proof.
  assert (Hlen : (0 < List.length (history (learn this p o)))%nat).
  { rewrite history_learn, length_app. simpl. lia. }
  destruct (ratio_bounds
              (List.length (filter is_success (history (learn this p o))))
              (List.length (history (learn this p o)))
              (filter_length_le _ _) Hlen) as [Hlo Hhi].
  destruct (round64_unit _ Hlo Hhi) as [q [Hq [Hq0 Hq1]]].
  assert (Hrate : successRate (learn this p o) = round64 (q * 100)).
  { unfold learn, updateSuccessRate. cbv zeta. cbn [successRate history].
    unfold of_nat. rewrite div_round.
    - unfold learn, updateSuccessRate in Hq. cbv zeta in Hq.
      cbn [history] in Hq. rewrite Hq. reflexivity.
    - apply inject_nat_nonzero. rewrite length_app. simpl. lia. }
  split; [reflexivity | split; [| split; [| reflexivity]]].
  - now exists q.
  - rewrite Hrate.
    apply (round64_between 0 100); [reflexivity | reflexivity | nra | nra].
Qed.

(** ** Predictions after learning *)

Lemma filter_similar_learn (this : MLPredictor) (p p' : Pattern) (o : string) :
  filter (similar p) (history (learn this p' o)) =
  filter (similar p) (history this) ++
  (if similar p {| pattern := p'; outcome := o |}
   then [ {| pattern := p'; outcome := o |} ] else []).
Proof.
  rewrite history_learn, filter_app. reflexivity.
Qed.

(** X2. Learning a record whose depth is not within 0.1 of a query's depth
    leaves the prediction for that query unchanged. *)
Theorem predict_learn_far (this : MLPredictor) (p p' : Pattern) (o : string) :
  similar p {| pattern := p'; outcome := o |} = false ->
  predict (learn this p' o) p = predict this p.
Proof.
  intros Hfar. unfold predict.
  rewrite filter_similar_learn, Hfar, app_nil_r. reflexivity.
Qed.

Lemma predict_learn_far_witness :
  predict (learn (learn ml_new (pattern_of_depth 0.05) "success")
                 (pattern_of_depth 0.30) "failure")
          (pattern_of_depth 0.06) =
  predict (learn ml_new (pattern_of_depth 0.05) "success")
          (pattern_of_depth 0.06).
Proof.
  apply (predict_learn_far
           (learn ml_new (pattern_of_depth 0.05) "success")
           (pattern_of_depth 0.06) (pattern_of_depth 0.30) "failure").
  vm_compute. reflexivity.
Defined.

Lemma ratio_succ_le (s n : nat) :
  (s <= n)%nat -> (0 < n)%nat ->
  inject_Z (Z.of_nat s) / inject_Z (Z.of_nat n) <=
  inject_Z (Z.of_nat (S s)) / inject_Z (Z.of_nat (S n)) /\
  inject_Z (Z.of_nat s) / inject_Z (Z.of_nat (S n)) <=
  inject_Z (Z.of_nat s) / inject_Z (Z.of_nat n).
Proof.
  intros Hsn Hn.
  pose proof (inject_nat_pos n Hn) as Hy.
  pose proof (inject_nat_nonneg s) as Hx.
  pose proof (inject_nat_le s n Hsn) as Hxy.
  destruct (ratio_bounds s n Hsn Hn) as [Hlo Hhi].
  rewrite !inject_nat_succ.
  set (x := inject_Z (Z.of_nat s)) in *.
  set (y := inject_Z (Z.of_nat n)) in *.
  assert (Hy0 : ~ y == 0) by (intros Hz; rewrite Hz in Hy; lra).
  assert (Hexp : (x / y) * (y + 1) == x + x / y) by (field; exact Hy0).
  split.
  - apply Qle_shift_div_l; [lra |]. rewrite Hexp. lra.
  - apply Qle_shift_div_r; [lra |]. rewrite Hexp. lra.
Qed.

Lemma is_success_iff (h : HistoryEntry) :
  is_success h = true <-> outcome h = "success"%string.
Proof. unfold is_success. apply String.eqb_eq. Qed.

Lemma filter_success_snoc (l : list HistoryEntry) (r : HistoryEntry) :
  List.length (filter is_success (l ++ [r])) =
  (List.length (filter is_success l) + (if is_success r then 1 else 0))%nat.
Proof.
  rewrite filter_app, length_app. simpl.
  now destruct (is_success r).
Qed.

(** X3. Learning a record whose depth is within 0.1 of a query's depth
    moves the prediction for that query one way only: a success never
    lowers it and any other outcome never raises it. *)
Theorem predict_learn_similar (this : MLPredictor) (p p' : Pattern)
    (o : string) :
  similar p {| pattern := p'; outcome := o |} = true ->
  (o = "success"%string ->
   leb (predict this p) (predict (learn this p' o) p) = true) /\
  (o <> "success"%string ->
   leb (predict (learn this p' o) p) (predict this p) = true).
Proof.
  intros Hsim.
  set (r := {| pattern := p'; outcome := o |}) in *.
  assert (Hnew : filter (similar p) (history (learn this p' o)) =
                 filter (similar p) (history this) ++ [r])
    by (now rewrite filter_similar_learn; fold r; rewrite Hsim).
  assert (Hne : filter (similar p) (history (learn this p' o)) <> []).
  { rewrite Hnew. intros Hnil. now apply app_eq_nil in Hnil as [_ Hnil]. }
  rewrite (predict_match _ _ Hne), Hnew, filter_success_snoc, length_app.
  simpl (List.length [r]).
  assert (Hyes : o = "success"%string -> is_success r = true)
    by (intros Ho; now apply is_success_iff).
  assert (Hno : o <> "success"%string -> is_success r = false).
  { intros Ho. destruct (is_success r) eqn:Er; [| reflexivity].
    apply is_success_iff in Er. contradiction. }
  destruct (filter (similar p) (history this)) as [| h l] eqn:E.
  - rewrite (predict_no_match this p E).
    split; intros Ho; [rewrite (Hyes Ho) | rewrite (Hno Ho)];
      vm_compute; reflexivity.
  - assert (Hold : filter (similar p) (history this) <> [])
      by (rewrite E; discriminate).
    rewrite (predict_match _ _ Hold), E.
    set (S := h :: l).
    assert (Hn : (0 < List.length S)%nat) by (simpl; lia).
    pose proof (filter_length_le is_success S) as Hsn.
    destruct (ratio_succ_le _ _ Hsn Hn) as [Hup Hdown].
    split; intros Ho; [rewrite (Hyes Ho) | rewrite (Hno Ho)].
    + rewrite !Nat.add_1_r. apply round64_mono. exact Hup.
    + rewrite Nat.add_0_r, Nat.add_1_r. apply round64_mono. exact Hdown.
Qed.

Lemma predict_learn_similar_witness :
  leb (predict (learn ml_new (pattern_of_depth 0.05) "failure")
               (pattern_of_depth 0.06))
      (predict (learn (learn ml_new (pattern_of_depth 0.05) "failure")
                      (pattern_of_depth 0.07) "success")
               (pattern_of_depth 0.06)) = true.
Proof.
  apply (proj1 (predict_learn_similar
                  (learn ml_new (pattern_of_depth 0.05) "failure")
                  (pattern_of_depth 0.06) (pattern_of_depth 0.07) "success"
                  ltac:(vm_compute; reflexivity))).
  reflexivity.
Defined.

(** ** More on the bottom detector *)

(** What being reported says about the windows around a bottom. *)
Lemma findBottoms_In_windows (priceData : PriceData) (b : Bottom) :
  In b (findBottoms priceData) ->
  (10 <= index b)%nat /\ (index b + 10 < List.length priceData)%nat /\
  price b = snd (at_index priceData (index b)) /\
  (forall j, (index b - 10 <= j < index b)%nat ->
     price b <= snd (at_index priceData j)) /\
  (forall j, (index b < j <= index b + 10)%nat ->
     price b <= snd (at_index priceData j)).
Proof.
  rewrite findBottoms_filter, in_map_iff.
  intros [i [<- Hi]]. apply filter_In in Hi. destruct Hi as [Hseq Hbot].
  apply in_seq in Hseq.
  assert (Hlo : (10 <= i)%nat) by lia.
  assert (Hhi : (i + 10 < List.length priceData)%nat) by lia.
  apply (isBottom_iff priceData i Hlo Hhi) in Hbot.
  destruct Hbot as [Hbefore Hafter]. simpl. auto.
Qed.

(** X4. Two reported bottoms at most ten samples apart have the same
    price: each lies in the other's window, so neither is below the other. *)
Theorem findBottoms_close_equal (priceData : PriceData) (b1 b2 : Bottom) :
  In b1 (findBottoms priceData) ->
  In b2 (findBottoms priceData) ->
  (index b1 < index b2 <= index b1 + 10)%nat ->
  price b1 == price b2.
Proof.
  intros H1 H2 Hnear.
  destruct (findBottoms_In_windows _ _ H1) as [_ [_ [_ [_ Hafter]]]].
  destruct (findBottoms_In_windows _ _ H2) as [_ [_ [_ [Hbefore _]]]].
  destruct (findBottoms_In_inv _ _ H1) as [_ [_ [Hp1 _]]].
  destruct (findBottoms_In_inv _ _ H2) as [_ [_ [Hp2 _]]].
  apply Qle_antisym.
  - rewrite Hp2. apply Hafter. lia.
  - rewrite Hp1. apply Hbefore. lia.
Qed.

Lemma findBottoms_close_equal_witness :
  price (bottom_at flat_sample 10) == price (bottom_at flat_sample 11).
Proof.
  apply (findBottoms_close_equal flat_sample
           (bottom_at flat_sample 10) (bottom_at flat_sample 11)).
  - vm_compute. left. reflexivity.
  - vm_compute. right. left. reflexivity.
  - simpl. lia.
Defined.

Lemma filter_all {A : Type} (f : A -> bool) (l : list A) :
  (forall x, In x l -> f x = true) -> filter f l = l.
Proof.
  induction l as [| x l IH]; intros Hall; simpl; [reflexivity |].
  rewrite (Hall x (or_introl eq_refl)). f_equal.
  apply IH. intros y Hy. apply Hall. now right.
Qed.

(** X5. The detector reports at most [length - 20] bottoms, and on a
    sequence whose prices are all equal it reports that many: every index
    from 10 to [length - 11], one next to the other. *)
Theorem findBottoms_flat (priceData : PriceData) :
  (List.length (findBottoms priceData) <= List.length priceData - 20)%nat /\
  ((forall j k, (j < List.length priceData)%nat ->
                (k < List.length priceData)%nat ->
                snd (at_index priceData j) == snd (at_index priceData k)) ->
   map index (findBottoms priceData) =
   seq 10 (List.length priceData - 20)).
Proof.
  split.
  - rewrite findBottoms_filter, length_map.
    etransitivity; [apply filter_length_le |].
    rewrite length_seq. lia.
  - intros Hflat. rewrite findBottoms_index.
    replace (List.length priceData - 10 - 10)%nat
      with (List.length priceData - 20)%nat by lia.
    apply filter_all. intros i Hi. apply in_seq in Hi.
    apply isBottom_iff; [lia | lia |].
    split; intros j Hj; apply Qle_lteq; right; apply Hflat; lia.
Qed.

Lemma findBottoms_flat_witness :
  map index (findBottoms flat_sample) = seq 10 (List.length flat_sample - 20).
Proof.
  apply (proj2 (findBottoms_flat flat_sample)).
  assert (Hone : forall j, (j < List.length flat_sample)%nat ->
                   snd (at_index flat_sample j) = 1).
  { intros j Hj.
    do 22 (destruct j as [| j]; [reflexivity |]).
    simpl in Hj. lia. }
  intros j k Hj Hk. now rewrite (Hone j Hj), (Hone k Hk).
Defined.

(** ** Invariants of the patterns the analysis returns *)

(** An accepted pattern pairs the last two bottoms of the detector. *)
Lemma analyzePriceData_last_two (priceData : PriceData) (p : Pattern) :
  analyzePriceData priceData = Some p ->
  exists earlier : list Bottom,
    findBottoms priceData = earlier ++ [firstBottom p; secondBottom p] /\
    criteria (firstBottom p) (secondBottom p) = true /\
    neckline p =
    calculateNeckline priceData (firstBottom p) (secondBottom p) /\
    depth p = priceDiff (firstBottom p) (secondBottom p) /\
    timespan p = timeDiff (firstBottom p) (secondBottom p).
Proof.
  unfold analyzePriceData, analyzeBottoms.
  destruct (2 <=? List.length (findBottoms priceData)) eqn:Hlen;
    [| discriminate].
  apply Nat.leb_le in Hlen.
  destruct (last_two _ Hlen) as [earlier [f [s Hl]]].
  rewrite Hl, slice_last_app.
  destruct (criteria f s) eqn:Hc; [| discriminate].
  intros [= <-]. exists earlier. simpl. auto.
Qed.

Lemma sorted_app_lt (l1 l2 : list Bottom) :
  StronglySorted Nat.lt (map index (l1 ++ l2)) ->
  forall a b, In a l1 -> In b l2 -> (index a < index b)%nat.
Proof.
  induction l1 as [| x l1 IH]; simpl; intros Hs a b Ha Hb; [contradiction |].
  inversion Hs as [| ? ? Hrest Hall]; subst.
  destruct Ha as [<- | Ha].
  - rewrite Forall_forall in Hall. apply Hall.
    apply in_map. apply in_or_app. now right.
  - now apply IH.
Qed.

Lemma round64_zero_eq : round64 0 = Fin 0.
Proof. reflexivity. Qed.

(** The days between two bottoms are not positive when the second is not
    later than the first. *)
Lemma timeDiff_nonpos (first second : Bottom) :
  timestamp second <= timestamp first ->
  leb (timeDiff first second) (Fin 0) = true.
Proof.
  intros Hle. unfold timeDiff.
  change (sub (Fin (timestamp second)) (Fin (timestamp first)))
    with (round64 (timestamp second - timestamp first)).
  assert (Hr : leb (round64 (timestamp second - timestamp first)) (Fin 0)
               = true).
  { rewrite <- round64_zero_eq. apply round64_mono. lra. }
  destruct (round64 (timestamp second - timestamp first)) as [d | | |];
    try discriminate Hr.
  - cbn [leb] in Hr. apply Qle_bool_iff in Hr.
    rewrite div_round by discriminate.
    rewrite <- round64_zero_eq. apply round64_mono.
    apply Qle_shift_div_r; [reflexivity | lra].
  - reflexivity.
Qed.

(** The depth is not negative for a positive first price. *)
Lemma priceDiff_nonneg (first second : Bottom) :
  0 < price first -> leb (Fin 0) (priceDiff first second) = true.
Proof.
  intros Hpos. unfold priceDiff.
  change (sub (Fin (price first)) (Fin (price second)))
    with (round64 (price first - price second)).
  pose proof (round64_not_nan (price first - price second)) as Hnan.
  assert (Hinf : div PosInf (Fin (price first)) = PosInf).
  { cbn [div]. unfold signed_inf.
    replace (Qneg_bool (price first)) with false
      by (symmetry; apply Qlt_bool_false_iff; lra).
    replace (Qpos_bool (price first)) with true
      by (symmetry; now apply Qlt_bool_iff).
    reflexivity. }
  destruct (round64 (price first - price second)) as [d | | |];
    cbn [abs]; [| now rewrite Hinf | now rewrite Hinf | contradiction].
  rewrite div_round by (intros Hz; rewrite Hz in Hpos; lra).
  rewrite <- round64_zero_eq. apply round64_mono.
  apply Qle_shift_div_l; [exact Hpos |].
  rewrite Qmult_0_l. apply Qabs_nonneg.
Qed.

(** X6. Every pattern the analysis returns pairs two bottoms of the
    detector, the first at a smaller index and an earlier timestamp; its
    depth is the number computed as the price difference over the first
    price, at most the number 0.20 (and not negative for a positive first
    price), and its timespan is the number of days computed between the
    bottoms, from 21 to 42. *)
Theorem analyzePriceData_invariants (priceData : PriceData) (p : Pattern) :
  analyzePriceData priceData = Some p ->
  In (firstBottom p) (findBottoms priceData) /\
  In (secondBottom p) (findBottoms priceData) /\
  (index (firstBottom p) < index (secondBottom p))%nat /\
  timestamp (firstBottom p) < timestamp (secondBottom p) /\
  depth p = priceDiff (firstBottom p) (secondBottom p) /\
  leb (depth p) (literal 0.20) = true /\
  (0 < price (firstBottom p) -> leb (Fin 0) (depth p) = true) /\
  timespan p = timeDiff (firstBottom p) (secondBottom p) /\
  exists d : Q, timespan p = Fin d /\ 21 <= d /\ d <= 42.
Proof.
  intros Hp.
  destruct (analyzePriceData_last_two _ _ Hp)
    as [earlier [Hl [Hc [_ [Hdepth Hspan]]]]].
  apply criteria_iff in Hc. destruct Hc as [Htol [Hmin Hmax]].
  pose proof (findBottoms_sorted priceData) as Hsorted. rewrite Hl in *.
  split; [apply in_or_app; right; now left |].
  split; [apply in_or_app; right; right; now left |].
  split; [now apply sorted_last_two with earlier |].
  split.
  { apply Qnot_le_lt. intros Hle.
    pose proof (timeDiff_nonpos _ _ Hle) as Hnp.
    pose proof (leb_trans _ _ _ Hmin Hnp) as Habs.
    discriminate Habs. }
  split; [exact Hdepth |].
  split; [now rewrite Hdepth |].
  split; [intros Hpos; rewrite Hdepth; now apply priceDiff_nonneg |].
  split; [exact Hspan |].
  rewrite Hspan. now apply leb_fin_between.
Qed.

Lemma analyzePriceData_invariants_witness :
  exists p : Pattern,
    analyzePriceData double_bottom_sample = Some p /\
    (index (firstBottom p) < index (secondBottom p))%nat /\
    timestamp (firstBottom p) < timestamp (secondBottom p).
Proof.
  eexists. split; [vm_compute; reflexivity |].
  refine ((fun H => conj (proj1 (proj2 (proj2 H)))
                         (proj1 (proj2 (proj2 (proj2 H)))))
            (analyzePriceData_invariants double_bottom_sample _ _)).
  vm_compute. reflexivity.
Defined.

(** X7. In every pattern the analysis returns, the neckline is a finite
    number at least as large as both bottom prices: the span holds the
    first bottom itself and the sample just before the second bottom,
    which the second bottom does not exceed. *)
Theorem analyzePriceData_neckline_dominates (priceData : PriceData)
    (p : Pattern) :
  analyzePriceData priceData = Some p ->
  exists m : Q,
    neckline p = Fin m /\
    price (firstBottom p) <= m /\
    price (secondBottom p) <= m.
Proof.
  intros Hp.
  destruct (analyzePriceData_last_two _ _ Hp) as [earlier [Hl [_ [Hn _]]]].
  pose proof (findBottoms_sorted priceData) as Hsorted.
  assert (Hf : In (firstBottom p) (findBottoms priceData))
    by (rewrite Hl; apply in_or_app; right; now left).
  assert (Hs : In (secondBottom p) (findBottoms priceData))
    by (rewrite Hl; apply in_or_app; right; right; now left).
  rewrite Hl in Hsorted. apply sorted_last_two in Hsorted.
  destruct (findBottoms_In_windows _ _ Hf) as [_ [Hflen [Hfp _]]].
  destruct (findBottoms_In_windows _ _ Hs) as [_ [Hslen [_ [Hbefore _]]]].
  destruct (calculateNeckline_max priceData (firstBottom p) (secondBottom p)
              Hsorted) as [m [Hm [_ Hub]]]; [lia |].
  exists m. split; [congruence | split].
  - rewrite Hfp. apply Hub; lia.
  - apply Qle_trans
      with (snd (at_index priceData (index (secondBottom p) - 1))).
    + apply Hbefore. lia.
    + apply Hub; lia.
Qed.

Lemma analyzePriceData_neckline_dominates_witness :
  exists p : Pattern,
    analyzePriceData double_bottom_sample = Some p /\
    exists m : Q,
      neckline p = Fin m /\
      price (firstBottom p) <= m /\
      price (secondBottom p) <= m.
Proof.
  eexists. split; [vm_compute; reflexivity |].
  apply (analyzePriceData_neckline_dominates double_bottom_sample).
  vm_compute. reflexivity.
Defined.

(** X8. The analysis pairs the two most recent bottoms: the second bottom
    of a returned pattern has the largest index the detector reported, and
    every other reported bottom has an index at most the first bottom's. *)
Theorem analyzePriceData_most_recent (priceData : PriceData) (p : Pattern) :
  analyzePriceData priceData = Some p ->
  forall b : Bottom,
    In b (findBottoms priceData) ->
    (index b <= index (secondBottom p))%nat /\
    (b <> secondBottom p -> (index b <= index (firstBottom p))%nat).
Proof.
  intros Hp b Hb.
  destruct (analyzePriceData_last_two _ _ Hp) as [earlier [Hl _]].
  pose proof (findBottoms_sorted priceData) as Hsorted.
  rewrite Hl in Hb, Hsorted.
  pose proof (sorted_last_two _ _ _ Hsorted) as Hfs.
  apply in_app_or in Hb. destruct Hb as [Hb | [<- | [<- | []]]].
  - assert (Hlt : (index b < index (firstBottom p))%nat).
    { apply (sorted_app_lt earlier [firstBottom p; secondBottom p] Hsorted).
      - exact Hb.
      - now left. }
    split; [lia |]. intros _. lia.
  - split; [lia |]. intros _. lia.
  - split; [lia |]. intros Hne. now contradiction Hne.
Qed.

Lemma analyzePriceData_most_recent_witness :
  exists p : Pattern,
    analyzePriceData double_bottom_sample = Some p /\
    (index (bottom_at double_bottom_sample 10) <= index (secondBottom p))%nat.
Proof.
  eexists. split; [vm_compute; reflexivity |].
  apply (analyzePriceData_most_recent double_bottom_sample _
           ltac:(vm_compute; reflexivity)
           (bottom_at double_bottom_sample 10)).
  vm_compute. left. reflexivity.
Defined.

(** X9. A price history of fewer than 22 samples never yields a pattern:
    it has room for at most one bottom. *)
Theorem analyzePriceData_short (priceData : PriceData) :
  (List.length priceData < 22)%nat -> analyzePriceData priceData = None.
Proof.
  intros Hshort. unfold analyzePriceData, analyzeBottoms.
  assert (Hlen : (List.length (findBottoms priceData) <= 1)%nat).
  { rewrite findBottoms_filter, length_map.
    etransitivity; [apply filter_length_le |]. rewrite length_seq. lia. }
  replace (2 <=? List.length (findBottoms priceData)) with false;
    [reflexivity |].
  symmetry. apply Nat.leb_gt. lia.
Qed.

Lemma analyzePriceData_short_witness :
  analyzePriceData neckline_sample = None.
Proof.
  apply (analyzePriceData_short neckline_sample). simpl. lia.
Defined.

(** ** The whole cycle *)

Lemma for_of_run (market_chart : string -> Result PriceData)
    (cryptos : list Crypto) (w : World) :
  for_of cryptos (detect_one market_chart) w =
  (match loop_error market_chart cryptos with
   | Some e => Throw e
   | None => Ok tt
   end,
   {| ml := ml w;
      events := events w ++ loop_events market_chart (ml w) cryptos |}).
Proof.
  revert w. induction cryptos as [| c rest IH]; intros w.
  - simpl. unfold ret. rewrite app_nil_r. now destruct w.
  - simpl for_of. unfold bind. rewrite detect_one_run. simpl.
    destruct (market_chart (id c)) as [priceData | e] eqn:Ec.
    + rewrite IH. simpl. unfold detect_one_output. rewrite Ec.
      now rewrite <- app_assoc.
    + unfold detect_one_output. rewrite Ec. reflexivity.
Qed.

(** One cycle, as a function of the provider's answers and the predictor. *)
Lemma detectDoubleBottom_run (markets : Result (list Crypto))
    (market_chart : string -> Result PriceData) (w : World) :
  detectDoubleBottom markets market_chart w =
  (Ok tt,
   {| ml := ml w;
      events := events w ++ cycle_events markets market_chart (ml w) |}).
Proof.
  unfold detectDoubleBottom, try_catch, getEligibleCryptos, await, bind,
    cycle_events, ret.
  destruct markets as [data | e]; simpl.
  - rewrite for_of_run. simpl.
    destruct (loop_error market_chart (filter eligible data)) as [e |]; simpl.
    + unfold emit. simpl. f_equal. f_equal.
      now rewrite <- !app_assoc.
    + f_equal. f_equal. now rewrite app_nil_r, <- app_assoc.
  - unfold emit. simpl. f_equal. f_equal. now rewrite <- app_assoc.
Qed.

Lemma detect_one_output_In (market_chart : string -> Result PriceData)
    (this : MLPredictor) (c : Crypto) (ev : Event) :
  In ev (detect_one_output market_chart this c) ->
  ev = FetchMarketChart (id c) \/
  exists (priceData : PriceData) (p : Pattern),
    market_chart (id c) = Ok priceData /\
    analyzePriceData priceData = Some p /\
    ev = ConsoleLog (makeAlert c p (predict this p)).
Proof.
  unfold detect_one_output. intros [<- | Hin]; [now left |]. right.
  destruct (market_chart (id c)) as [priceData | e]; [| contradiction].
  destruct (analyzePriceData priceData) as [p |] eqn:Ep; [| contradiction].
  destruct Hin as [<- | []]. now exists priceData, p.
Qed.

Lemma loop_events_In (market_chart : string -> Result PriceData)
    (this : MLPredictor) (cryptos : list Crypto) (ev : Event) :
  In ev (loop_events market_chart this cryptos) ->
  exists c, In c cryptos /\ In ev (detect_one_output market_chart this c).
Proof.
  induction cryptos as [| c rest IH]; cbn [loop_events]; [contradiction |].
  intros Hin. apply in_app_or in Hin. destruct Hin as [Hin | Hin].
  - exists c. split; [now left | exact Hin].
  - destruct (market_chart (id c)); [| contradiction].
    destruct (IH Hin) as [c' [Hc' Hev]]. exists c'.
    split; [now right | exact Hev].
Qed.

Lemma loop_events_no_error (market_chart : string -> Result PriceData)
    (this : MLPredictor) (cryptos : list Crypto) (e : Error) :
  ~ In (ConsoleError e) (loop_events market_chart this cryptos).
Proof.
  intros Hin. apply loop_events_In in Hin. destruct Hin as [c [_ Hin]].
  apply detect_one_output_In in Hin.
  destruct Hin as [Hin | [priceData [p [_ [_ Hin]]]]]; discriminate.
Qed.

Lemma eligible_iff (c : Crypto) :
  eligible c = true <->
  1000000 <= total_volume c /\ 40000000 <= market_cap c.
Proof.
  unfold eligible. now rewrite andb_true_iff, !Qle_bool_iff.
Qed.

(** X12. [getEligibleCryptos] makes exactly one request and changes
    nothing else; when the request throws, so does it; otherwise it
    returns, in the provider's order, exactly the assets with a volume of
    at least 1,000,000 and a market capitalisation of at least
    40,000,000. *)
Theorem getEligibleCryptos_spec (markets : Result (list Crypto)) (w : World) :
  snd (getEligibleCryptos markets w) =
  {| ml := ml w; events := events w ++ [FetchMarkets] |} /\
  (forall e : Error,
     markets = Throw e -> fst (getEligibleCryptos markets w) = Throw e) /\
  (forall data : list Crypto,
     markets = Ok data ->
     fst (getEligibleCryptos markets w) = Ok (filter eligible data) /\
     forall c : Crypto,
       In c (filter eligible data) <->
       In c data /\
       1000000 <= total_volume c /\ 40000000 <= market_cap c).
Proof.
  unfold getEligibleCryptos, await, bind, ret.
  destruct markets as [data | e]; simpl.
  - split; [reflexivity | split; [discriminate |]].
    intros data' [= <-]. split; [reflexivity |].
    intros c. now rewrite filter_In, eligible_iff.
  - split; [reflexivity | split; [| discriminate]].
    now intros e' [= <-].
Qed.

Lemma getEligibleCryptos_spec_witness :
  fst (getEligibleCryptos sample_markets (sample_world [])) =
  Ok (filter eligible
        [sample_crypto "btc"; sample_crypto "fail"; sample_crypto "eth"]).
Proof.
  apply (proj1 (proj2 (proj2 (getEligibleCryptos_spec sample_markets
                                (sample_world [])))
                 [sample_crypto "btc"; sample_crypto "fail";
                  sample_crypto "eth"] eq_refl)).
Defined.

(** X13. Whatever the provider answers, a cycle returns normally, leaves
    the predictor as it was and only appends to the event log, starting
    with the markets request; it writes at most one error to the console,
    and that error is the last event of the cycle. *)
Theorem detectDoubleBottom_frame (markets : Result (list Crypto))
    (market_chart : string -> Result PriceData) (w : World) :
  exists out : list Event,
    detectDoubleBottom markets market_chart w =
    (Ok tt, {| ml := ml w; events := events w ++ FetchMarkets :: out |}) /\
    forall e : Error,
      In (ConsoleError e) out ->
      exists before : list Event,
        out = before ++ [ConsoleError e] /\
        forall e' : Error, ~ In (ConsoleError e') before.
Proof.
  rewrite detectDoubleBottom_run. unfold cycle_events.
  eexists. split; [reflexivity |].
  intros e Hin. destruct markets as [data | e0].
  - apply in_app_or in Hin. destruct Hin as [Hin | Hin].
    + now apply loop_events_no_error in Hin.
    + destruct (loop_error market_chart (filter eligible data)) as [e1 |];
        [| contradiction].
      destruct Hin as [[= <-] | []].
      exists (loop_events market_chart (ml w) (filter eligible data)).
      split; [reflexivity |]. intros e'. apply loop_events_no_error.
  - destruct Hin as [[= <-] | []]. exists []. split; [reflexivity |].
    intros e' [].
Qed.

(** X14. When the markets request throws, the cycle makes no other
    request and raises no alert: it writes the error and returns. *)
Theorem detectDoubleBottom_markets_failure (e : Error)
    (market_chart : string -> Result PriceData) (w : World) :
  detectDoubleBottom (Throw e) market_chart w =
  (Ok tt,
   {| ml := ml w;
      events := events w ++ [FetchMarkets; ConsoleError e] |}).
Proof.
  now rewrite detectDoubleBottom_run.
Qed.

Lemma loop_all_ok (market_chart : string -> Result PriceData)
    (this : MLPredictor) (cryptos : list Crypto) :
  (forall c, In c cryptos ->
     exists priceData, market_chart (id c) = Ok priceData) ->
  loop_error market_chart cryptos = None /\
  loop_events market_chart this cryptos =
  flat_map (detect_one_output market_chart this) cryptos.
Proof.
  induction cryptos as [| c rest IH]; intros Hok; [now split |].
  cbn [loop_error loop_events flat_map].
  destruct (Hok c (or_introl eq_refl)) as [priceData Hc]. rewrite Hc.
  destruct IH as [Herr Hev]; [intros c' Hc'; apply Hok; now right |].
  split; [exact Herr | now rewrite Hev].
Qed.

(** X15. When the chart request of every eligible asset is answered, the
    cycle processes all of them in the provider's order and writes no
    error: the events are the markets request followed by the output of
    each eligible asset. *)
Theorem detectDoubleBottom_all_answered (data : list Crypto)
    (market_chart : string -> Result PriceData) (w : World) :
  (forall c, In c data -> eligible c = true ->
     exists priceData, market_chart (id c) = Ok priceData) ->
  detectDoubleBottom (Ok data) market_chart w =
  (Ok tt,
   {| ml := ml w;
      events :=
        events w ++
        FetchMarkets ::
        flat_map (detect_one_output market_chart (ml w))
                 (filter eligible data) |}).
Proof.
  intros Hok. rewrite detectDoubleBottom_run. unfold cycle_events.
  destruct (loop_all_ok market_chart (ml w) (filter eligible data))
    as [Herr Hev].
  - intros c Hc. apply filter_In in Hc. destruct Hc as [Hin Hel].
    now apply Hok.
  - now rewrite Herr, Hev, app_nil_r.
Qed.

Lemma detectDoubleBottom_all_answered_witness :
  detectDoubleBottom (Ok [sample_crypto "btc"; sample_crypto "eth"])
    sample_chart (sample_world []) =
  (Ok tt,
   {| ml := ml (sample_world []);
      events :=
        events (sample_world []) ++
        FetchMarkets ::
        flat_map (detect_one_output sample_chart (ml (sample_world [])))
                 (filter eligible
                    [sample_crypto "btc"; sample_crypto "eth"]) |}).
Proof.
  apply (detectDoubleBottom_all_answered
           [sample_crypto "btc"; sample_crypto "eth"]
           sample_chart (sample_world [])).
  intros c [<- | [<- | []]] _; exists double_bottom_sample; reflexivity.
Defined.

(** X16. A cycle requests the chart of eligible assets only: every chart
    request it adds is for an asset of the markets answer with a volume of
    at least 1,000,000 and a market capitalisation of at least
    40,000,000. *)
Theorem detectDoubleBottom_fetches_eligible (markets : Result (list Crypto))
    (market_chart : string -> Result PriceData) (w : World)
    (cryptoId : string) :
  In (FetchMarketChart cryptoId)
     (events (snd (detectDoubleBottom markets market_chart w))) ->
  In (FetchMarketChart cryptoId) (events w) \/
  exists (data : list Crypto) (c : Crypto),
    markets = Ok data /\ In c data /\ id c = cryptoId /\
    1000000 <= total_volume c /\ 40000000 <= market_cap c.
Proof.
  rewrite detectDoubleBottom_run. simpl. intros Hin.
  apply in_app_or in Hin. destruct Hin as [Hin | Hin]; [now left |].
  right. unfold cycle_events in Hin.
  destruct Hin as [Hin | Hin]; [discriminate |].
  destruct markets as [data | e].
  - apply in_app_or in Hin. destruct Hin as [Hin | Hin].
    + apply loop_events_In in Hin. destruct Hin as [c [Hc Hev]].
      apply filter_In in Hc. destruct Hc as [Hdata Hel].
      apply eligible_iff in Hel.
      apply detect_one_output_In in Hev.
      destruct Hev as [[= Heq] | [pd [p [_ [_ Hev]]]]]; [| discriminate].
      exists data, c. symmetry in Heq. tauto.
    + destruct (loop_error market_chart (filter eligible data));
        [destruct Hin as [Hin | []]; discriminate | contradiction].
  - destruct Hin as [Hin | []]. discriminate.
Qed.

Lemma detectDoubleBottom_fetches_eligible_witness :
  In (FetchMarketChart "btc") (events (sample_world [])) \/
  exists (data : list Crypto) (c : Crypto),
    sample_markets = Ok data /\ In c data /\ id c = "btc"%string /\
    1000000 <= total_volume c /\ 40000000 <= market_cap c.
Proof.
  apply (detectDoubleBottom_fetches_eligible sample_markets sample_chart
           (sample_world []) "btc").
  vm_compute. right. left. reflexivity.
Defined.

(** X17. Every alert a cycle writes is for an eligible asset of the
    markets answer whose price history holds a double bottom: it carries
    the pattern the analysis returned for that history, an alert type (it
    is never left unset) and a confidence between 0 and 1 computed from
    the predictor as it was when the cycle started. *)
Theorem detectDoubleBottom_alerts (markets : Result (list Crypto))
    (market_chart : string -> Result PriceData) (w : World) (a : Alert) :
  In (ConsoleLog a)
     (events (snd (detectDoubleBottom markets market_chart w))) ->
  In (ConsoleLog a) (events w) \/
  exists (data : list Crypto) (c : Crypto) (priceData : PriceData)
         (p : Pattern),
    markets = Ok data /\ In c data /\ eligible c = true /\
    market_chart (id c) = Ok priceData /\
    analyzePriceData priceData = Some p /\
    a = makeAlert c p (predict (ml w) p) /\
    alert_type a <> None /\
    exists q : Q, alert_confidence a = Fin q /\ 0 <= q /\ q <= 1.
Proof.
  rewrite detectDoubleBottom_run. simpl. intros Hin.
  apply in_app_or in Hin. destruct Hin as [Hin | Hin]; [now left |].
  right. unfold cycle_events in Hin.
  destruct Hin as [Hin | Hin]; [discriminate |].
  destruct markets as [data | e].
  - apply in_app_or in Hin. destruct Hin as [Hin | Hin].
    + apply loop_events_In in Hin. destruct Hin as [c [Hc Hev]].
      apply filter_In in Hc. destruct Hc as [Hdata Hel].
      apply detect_one_output_In in Hev.
      destruct Hev as [Hev | [pd [p [Hpd [Hp [= ->]]]]]]; [discriminate |].
      exists data, c, pd, p.
      repeat (split; [solve [trivial] |]). split.
      * destruct (analyzePriceData_neckline pd p Hp) as [m Hm].
        cbn [makeAlert alert_type]. apply alertType_not_none.
        rewrite Hm. discriminate.
      * apply predict_range.
    + destruct (loop_error market_chart (filter eligible data));
        [destruct Hin as [Hin | []]; discriminate | contradiction].
  - destruct Hin as [Hin | []]. discriminate.
Qed.

Lemma detectDoubleBottom_alerts_witness :
  exists a : Alert,
    alert_type a <> None /\
    (In (ConsoleLog a) (events (sample_world [])) \/
     exists (data : list Crypto) (c : Crypto) (priceData : PriceData)
            (p : Pattern),
       sample_markets = Ok data /\ In c data /\ eligible c = true /\
       sample_chart (id c) = Ok priceData /\
       analyzePriceData priceData = Some p /\
       a = makeAlert c p (predict (ml (sample_world [])) p) /\
       alert_type a <> None /\
       exists q : Q, alert_confidence a = Fin q /\ 0 <= q /\ q <= 1).
Proof.
  eexists. split; [|
    apply (detectDoubleBottom_alerts sample_markets sample_chart
             (sample_world []));
    vm_compute; right; right; left; reflexivity].
  vm_compute. discriminate.
Defined.

(** ** Edge cases of the neckline *)

(** X18. The neckline is [-Infinity] exactly when the span is empty, that
    is when the second index is not above the first or the first index is
    past the end of the price sequence; in every other case it is a finite
    number.  It is never [NaN] nor [Infinity]. *)
Theorem calculateNeckline_empty (priceData : PriceData) (f s : Bottom) :
  (calculateNeckline priceData f s = NegInf <->
   (index s <= index f)%nat \/ (List.length priceData <= index f)%nat) /\
  (calculateNeckline priceData f s = NegInf \/
   exists m : Q, calculateNeckline priceData f s = Fin m).
Proof.
  destruct (Nat.le_gt_cases (index s) (index f)) as [Hle | Hlt].
  - assert (Hnil : slice priceData (index f) (index s) = []).
    { apply length_zero_iff_nil. rewrite slice_length. lia. }
    assert (Hneg : calculateNeckline priceData f s = NegInf)
      by (unfold calculateNeckline; now rewrite Hnil).
    split; [| now left]. split; [intros _; now left | intros _; exact Hneg].
  - destruct (Nat.le_gt_cases (List.length priceData) (index f))
      as [Hout | Hin].
    + assert (Hnil : slice priceData (index f) (index s) = []).
      { apply length_zero_iff_nil. rewrite slice_length. lia. }
      assert (Hneg : calculateNeckline priceData f s = NegInf)
        by (unfold calculateNeckline; now rewrite Hnil).
      split; [| now left].
      split; [intros _; now right | intros _; exact Hneg].
    + destruct (calculateNeckline_max priceData f s Hlt Hin) as [m [Hm _]].
      split; [| right; now exists m].
      rewrite Hm. split; [discriminate | intros [H | H]; lia].
Qed.

(** ** What a prediction depends on *)

(** The matching records and the successes among them, counted. *)
Lemma predict_counts (this that : MLPredictor) (p q : Pattern) :
  List.length (filter (similar p) (history this)) =
  List.length (filter (similar q) (history that)) ->
  List.length (filter is_success (filter (similar p) (history this))) =
  List.length (filter is_success (filter (similar q) (history that))) ->
  predict this p = predict that q.
Proof.
  intros Hn Hs. unfold predict. cbv zeta. now rewrite Hn, Hs.
Qed.

(** X19. A prediction reads the depths and the outcomes only: two
    predictors whose records agree one by one on depth and outcome give
    the same prediction to two queries of the same depth, whatever the
    bottoms, necklines and timespans of the patterns and whatever the
    stored success rates. *)
Theorem predict_depth_only (this that : MLPredictor) (p q : Pattern) :
  Forall2 (fun h h' => depth (pattern h) = depth (pattern h') /\
                       outcome h = outcome h')
          (history this) (history that) ->
  depth p = depth q ->
  predict this p = predict that q.
Proof.
  intros Hall Hd.
  assert (Hboth :
    List.length (filter (similar p) (history this)) =
    List.length (filter (similar q) (history that)) /\
    List.length (filter is_success (filter (similar p) (history this))) =
    List.length (filter is_success (filter (similar q) (history that)))).
  { induction Hall as [| h h' l l' [Hdepth Hout] _ [IHn IHs]];
      [now split |].
    assert (Hsim : similar p h = similar q h')
      by (unfold similar; now rewrite Hdepth, Hd).
    assert (Hsuc : is_success h = is_success h')
      by (unfold is_success; now rewrite Hout).
    simpl. rewrite Hsim. destruct (similar q h'); [| now split].
    simpl. rewrite Hsuc. destruct (is_success h'); simpl; split; congruence. }
  destruct Hboth as [Hn Hs]. now apply predict_counts.
Qed.

Lemma predict_depth_only_witness :
  predict (learn ml_new (pattern_of_depth 0.05) "success") alert_sample =
  predict (learn ml_new (pattern_of_depth 0.05) "success")
          (pattern_of_depth (2 / 88)).
Proof.
  apply (predict_depth_only
           (learn ml_new (pattern_of_depth 0.05) "success")
           (learn ml_new (pattern_of_depth 0.05) "success")
           alert_sample (pattern_of_depth (2 / 88))).
  - repeat constructor.
  - reflexivity.
Defined.

(** ** Longer histories *)

Lemma at_index_app (priceData more : PriceData) (j : nat) :
  (j < List.length priceData)%nat ->
  at_index (priceData ++ more) j = at_index priceData j.
Proof.
  intros Hj. unfold at_index. now apply app_nth1.
Qed.

(** X20. Samples appended to a price history never remove a bottom: a
    bottom reported for a history is reported, with the same timestamp,
    price and index, for every extension of that history. *)
Theorem findBottoms_extend (priceData more : PriceData) (b : Bottom) :
  In b (findBottoms priceData) -> In b (findBottoms (priceData ++ more)).
Proof.
  intros Hb. pose proof (findBottoms_In_windows _ _ Hb)
    as [Hlo [Hhi [_ [Hbefore Hafter]]]].
  destruct (findBottoms_In_inv _ _ Hb) as [_ [_ [Hprice Hts]]].
  assert (Hb' : b = bottom_at (priceData ++ more) (index b)).
  { unfold bottom_at. rewrite at_index_app by lia.
    destruct b as [t q i]. simpl in *. now subst. }
  rewrite Hb', findBottoms_filter. apply in_map. apply filter_In. split.
  - apply in_seq. rewrite length_app. lia.
  - apply isBottom_iff; [exact Hlo | rewrite length_app; lia |].
    rewrite at_index_app by lia. rewrite <- Hprice.
    split; intros j Hj; rewrite at_index_app by lia.
    + now apply Hbefore.
    + now apply Hafter.
Qed.

Lemma findBottoms_extend_witness :
  In (bottom_at flat_sample 10) (findBottoms (flat_sample ++ [(22, 5)])).
Proof.
  apply (findBottoms_extend flat_sample [(22, 5)] (bottom_at flat_sample 10)).
  vm_compute. left. reflexivity.
Defined.
